(** * Presence hub and presence client: a shallow embedding

    The development follows the two halves of the presence subsystem:

    - [Js]: the fragment of JavaScript values the code manipulates
      (values produced by [JSON.parse], property reads, [Map]);
    - [Hub]: the WebSocket handlers of [server.ts];
    - [Client]: the presence effect and the notification operations of
      [App.tsx].

    Definitions come first, theorems afterwards. *)

From Stdlib Require Import List String Ascii Bool Arith NArith Lia.
From Stdlib Require Import Permutation DecimalString DecimalN DecimalFacts.
Import ListNotations.
Local Open Scope string_scope.
Local Open Scope list_scope.

(* ===================================================================== *)
(** * JavaScript values                                                   *)
(* ===================================================================== *)

Module Js.

(** Objects and arrays are compared by identity: each carries the
    address at which it was allocated. *)
Definition Ref := nat.

(** A number is an IEEE-754 binary64, kept as its 64-bit pattern. *)
Definition Double := N.

#[local] Set Warnings "-register-all".

Inductive Value : Type :=
| JUndefined
| JNull
| JBool (b : bool)
| JNumber (d : Double)
| JString (s : string)
| JArray (r : Ref) (items : list Value)
| JObject (r : Ref) (props : list (string * Value)).

Inductive Error : Type :=
| SyntaxError   (* thrown by JSON.parse *)
| TypeError.    (* thrown by a property read on undefined or null *)

(** Result of evaluating an expression that may throw. *)
Inductive Completion (A : Type) : Type :=
| Normal (a : A)
| Throw (e : Error).
Arguments Normal {A} a.
Arguments Throw {A} e.

Definition bind {A B} (c : Completion A) (k : A -> Completion B)
  : Completion B :=
  match c with
  | Normal a => k a
  | Throw e => Throw e
  end.

Fixpoint own_property (k : string) (props : list (string * Value))
  : Value :=
  match props with
  | [] => JUndefined
  | (k', v) :: rest => if String.eqb k' k then v else own_property k rest
  end.

(** [v.k] for the property names read by the hub ("type", "user",
    "id"): none of them is defined on a prototype, so on a primitive or
    an array the read yields [undefined]; on [undefined] and [null] it
    throws. *)
Definition get (v : Value) (k : string) : Completion Value :=
  match v with
  | JUndefined | JNull => Throw TypeError
  | JObject _ props => Normal (own_property k props)
  | JBool _ | JNumber _ | JString _ | JArray _ _ => Normal JUndefined
  end.

(** [v === "literal"]. *)
Definition strict_eq_string (v : Value) (lit : string) : bool :=
  match v with
  | JString s => String.eqb s lit
  | _ => false
  end.

Definition exponent_bits (d : Double) : N := N.land (N.shiftr d 52) 2047.
Definition mantissa_bits (d : Double) : N := N.land d (N.ones 52).

Definition is_nan (d : Double) : bool :=
  N.eqb (exponent_bits d) 2047 && negb (N.eqb (mantissa_bits d) 0).

Definition is_zero (d : Double) : bool :=
  N.eqb (exponent_bits d) 0 && N.eqb (mantissa_bits d) 0.

Definition number_sameValueZero (a b : Double) : bool :=
  (is_nan a && is_nan b) || (is_zero a && is_zero b) || N.eqb a b.

(** Key equality of [Map]. *)
Definition sameValueZero (a b : Value) : bool :=
  match a, b with
  | JUndefined, JUndefined => true
  | JNull, JNull => true
  | JBool x, JBool y => Bool.eqb x y
  | JNumber x, JNumber y => number_sameValueZero x y
  | JString x, JString y => String.eqb x y
  | JArray r _, JArray r' _ => Nat.eqb r r'
  | JObject r _, JObject r' _ => Nat.eqb r r'
  | _, _ => false
  end.

(** A [Map] keeps its entries in insertion order; [set] on a key that
    is present overwrites the value in place. *)
Definition JsMap (K V : Type) := list (K * V).

Fixpoint map_set {K V} (eqb : K -> K -> bool) (k : K) (v : V)
  (m : JsMap K V) : JsMap K V :=
  match m with
  | [] => [(k, v)]
  | (k', v') :: rest =>
      if eqb k' k then (k', v) :: rest
      else (k', v') :: map_set eqb k v rest
  end.

Fixpoint map_delete {K V} (eqb : K -> K -> bool) (k : K)
  (m : JsMap K V) : JsMap K V :=
  match m with
  | [] => []
  | (k', v') :: rest =>
      if eqb k' k then rest else (k', v') :: map_delete eqb k rest
  end.

Definition map_keys {K V} (m : JsMap K V) : list K := map fst m.
Definition map_values {K V} (m : JsMap K V) : list V := map snd m.

End Js.

(* ===================================================================== *)
(** * The hub ([server.ts])                                                *)
(* ===================================================================== *)

Module Hub.
Import Js.

(** A [WebSocket] object of the server, by identity. *)
Definition Conn := nat.

Inductive ReadyState := CONNECTING | OPEN | CLOSING | CLOSED.

Definition is_open (s : ReadyState) : bool :=
  match s with OPEN => true | _ => false end.

(** [wss.clients] with the [readyState] of each socket, and the
    [activeUsers] map. *)
Record State := {
  clients : list (Conn * ReadyState);
  activeUsers : JsMap Conn Value
}.

Definition initial : State := {| clients := []; activeUsers := [] |}.

(** The text handed to [client.send]: the serialisation of
    [{ type: "PRESENCE_UPDATE", users }]. *)
Inductive Payload := PresenceUpdate (users : list Value).

(** [activeUsers.forEach((user) => usersMap.set(user.id, user))]. *)
Fixpoint collect (entries : JsMap Conn Value) (usersMap : JsMap Value Value)
  : Completion (JsMap Value Value) :=
  match entries with
  | [] => Normal usersMap
  | (_, user) :: rest =>
      bind (get user "id")
           (fun id => collect rest (map_set sameValueZero id user usersMap))
  end.

(** [Array.from(usersMap.values())] for a fresh [usersMap]. *)
Definition snapshot (entries : JsMap Conn Value) : Completion (list Value) :=
  bind (collect entries []) (fun usersMap => Normal (map_values usersMap)).

(** [wss.clients.forEach] with the [readyState] test. *)
Definition fan_out (cs : list (Conn * ReadyState)) (p : Payload)
  : list (Conn * Payload) :=
  map (fun c => (fst c, p)) (filter (fun c => is_open (snd c)) cs).

Definition broadcastPresence (st : State)
  : Completion (list (Conn * Payload)) :=
  bind (snapshot (activeUsers st))
       (fun users => Normal (fan_out (clients st) (PresenceUpdate users))).

(** How a handler ends. *)
Inductive Outcome :=
| Done
| Logged (e : Error)     (* caught, passed to console.error *)
| Uncaught (e : Error).  (* leaves the handler *)

Record Reaction := {
  next : State;
  delivered : list (Conn * Payload);
  outcome : Outcome
}.

(** An inbound text frame, by what [JSON.parse] makes of it. *)
Inductive Frame :=
| Garbled
| Json (data : Value).

Definition register (ws : Conn) (user : Value) (st : State) : State :=
  {| clients := clients st;
     activeUsers := map_set Nat.eqb ws user (activeUsers st) |}.

Definition unregister (ws : Conn) (st : State) : State :=
  {| clients := clients st;
     activeUsers := map_delete Nat.eqb ws (activeUsers st) |}.

(** [ws.on("message", ...)]. *)
Definition on_message (ws : Conn) (message : Frame) (st : State)
  : Reaction :=
  match message with
  | Garbled => {| next := st; delivered := []; outcome := Logged SyntaxError |}
  | Json data =>
      match get data "type" with
      | Throw e => {| next := st; delivered := []; outcome := Logged e |}
      | Normal ty =>
          if strict_eq_string ty "USER_JOINED" then
            match get data "user" with
            | Throw e => {| next := st; delivered := []; outcome := Logged e |}
            | Normal user =>
                let st' := register ws user st in
                match broadcastPresence st' with
                | Throw e =>
                    {| next := st'; delivered := []; outcome := Logged e |}
                | Normal sends =>
                    {| next := st'; delivered := sends; outcome := Done |}
                end
            end
          else {| next := st; delivered := []; outcome := Done |}
      end
  end.

(** [ws.on("close", ...)]: no [try] around the body. *)
Definition on_close (ws : Conn) (st : State) : Reaction :=
  let st' := unregister ws st in
  match broadcastPresence st' with
  | Throw e => {| next := st'; delivered := []; outcome := Uncaught e |}
  | Normal sends => {| next := st'; delivered := sends; outcome := Done |}
  end.

(** What the [ws] library does around the handlers: a new socket joins
    [wss.clients] in state OPEN before "connection" fires, and has left
    [wss.clients] when its "close" listener runs. *)
Definition accept (ws : Conn) (st : State) : State :=
  {| clients := clients st ++ [(ws, OPEN)]; activeUsers := activeUsers st |}.

Definition drop (ws : Conn) (st : State) : State :=
  {| clients := filter (fun c => negb (Nat.eqb (fst c) ws)) (clients st);
     activeUsers := activeUsers st |}.

(** The announced payload of line 18:
    [{ id: string, name: string, avatar: string }]. *)
Record Identity := { id : string; name : string; avatar : string }.

Definition identity_value (r : Ref) (u : Identity) : Value :=
  JObject r [("id", JString (id u));
             ("name", JString (name u));
             ("avatar", JString (avatar u))].

Definition announce (r r' : Ref) (u : Identity) : Frame :=
  Json (JObject r [("type", JString "USER_JOINED");
                   ("user", identity_value r' u)]).

(** [user.id] of a snapshot entry ([undefined] where the read throws). *)
Definition id_of (user : Value) : Value :=
  match get user "id" with
  | Normal v => v
  | Throw _ => JUndefined
  end.

(** What reaches the hub: a new connection, a text frame on a
    connection, the close of a connection. *)
Inductive Event :=
| Connection (ws : Conn)
| Message (ws : Conn) (message : Frame)
| Close (ws : Conn).

Definition react (e : Event) (st : State) : Reaction :=
  match e with
  | Connection ws =>
      {| next := accept ws st; delivered := []; outcome := Done |}
  | Message ws message => on_message ws message st
  | Close ws => on_close ws (drop ws st)
  end.

(** Registry calls with well-formed arguments. The two addresses of
    [Register] are those of the parsed message and of its [user]. *)
Inductive Call :=
| Connect (ws : Conn)
| Register (ws : Conn) (r r' : Ref) (u : Identity)
| Unregister (ws : Conn).

Definition event_of (c : Call) : Event :=
  match c with
  | Connect ws => Connection ws
  | Register ws r r' u => Message ws (announce r r' u)
  | Unregister ws => Close ws
  end.

Definition call (c : Call) (st : State) : Reaction := react (event_of c) st.

Definition run (cs : list Call) (st : State) : State :=
  fold_left (fun s c => next (call c s)) cs st.

(** No registered value is [undefined] or [null]. *)
Definition readable (v : Value) : bool :=
  match v with
  | JUndefined | JNull => false
  | _ => true
  end.

Definition registry_readable (entries : JsMap Conn Value) : bool :=
  forallb readable (map_values entries).

(** No value of the list is the same [Map] key as a later one. *)
Definition pairwise_distinct (ks : list Value) : Prop :=
  ForallOrdPairs (fun a b => sameValueZero a b = false) ks.

(** Every entry of a [usersMap] sits under the key its [id] selects. *)
Definition keyed (usersMap : JsMap Value Value) : Prop :=
  Forall (fun p => sameValueZero (fst p) (id_of (snd p)) = true) usersMap.

End Hub.

(* ===================================================================== *)
(** * The client ([App.tsx], [store.ts], [types.ts])                       *)
(* ===================================================================== *)

Module Client.

(** [User] of [types.ts]; the fields the presence code does not read
    ([role], the skill lists, [settings]) are left out. *)
Module User.
Record t := { id : string; name : string; email : string; avatar : string }.
End User.

Inductive NotificationType := message | session | upload | skill.

Record Link := {
  tab : option string;
  skillId : option string;
  contentId : option string
}.

Module AppNotification.
Record t := {
  id : string;
  userId : string;
  type : NotificationType;
  title : string;
  message : string;
  timestamp : string;
  isRead : bool;
  link : option Link
}.
End AppNotification.

(** [Omit<AppNotification, 'id' | 'userId' | 'timestamp' | 'isRead'>]. *)
Module Draft.
Record t := {
  type : NotificationType;
  title : string;
  message : string;
  link : option Link
}.
End Draft.

(** [AppData] of [store.ts], without the catalogue fields. *)
Record AppData := {
  users : list User.t;
  notifications : list AppNotification.t;
  currentUser : option User.t
}.

Inductive ReadyState := CONNECTING | OPEN | CLOSING | CLOSED.

(** The socket created by the presence effect, together with the
    [data.currentUser] its handlers closed over. *)
Record Socket := { me : User.t; readyState : ReadyState }.

(** The state of the [App] component that the presence code touches.
    [clockReads] counts the readings of the system clock made so far. *)
Record App := {
  data : AppData;
  onlineUsers : list User.t;
  onlineUsersRef : list User.t;
  ws : option Socket;
  clockReads : nat
}.

Definition setData (f : AppData -> AppData) (st : App) : App :=
  {| data := f (data st);
     onlineUsers := onlineUsers st;
     onlineUsersRef := onlineUsersRef st;
     ws := ws st;
     clockReads := clockReads st |}.

Definition setOnlineUsers (l : list User.t) (st : App) : App :=
  {| data := data st;
     onlineUsers := l;
     onlineUsersRef := onlineUsersRef st;
     ws := ws st;
     clockReads := clockReads st |}.

Definition set_ws (s : option Socket) (st : App) : App :=
  {| data := data st;
     onlineUsers := onlineUsers st;
     onlineUsersRef := onlineUsersRef st;
     ws := s;
     clockReads := clockReads st |}.

Definition tick (n : nat) (st : App) : App :=
  {| data := data st;
     onlineUsers := onlineUsers st;
     onlineUsersRef := onlineUsersRef st;
     ws := ws st;
     clockReads := n + clockReads st |}.

(** What the socket receives, by what [JSON.parse] and the [type] test
    make of it; [message.users] has the type the code casts it to. *)
Inductive Inbound :=
| Unparseable
| OtherMessage
| PRESENCE_UPDATE (users : list User.t).

Inductive Outbound := USER_JOINED (user : User.t).

(** Decimal rendering of a clock reading, as string concatenation
    with a number produces it. *)
Definition decimal (n : N) : string := NilEmpty.string_of_uint (N.to_uint n).

Section Clock.

(** [dateNow k] is the value of the k-th reading of the system clock,
    in milliseconds; [toISOString] is the formatting of [Date]. *)
Variable dateNow : nat -> N.
Variable toISOString : N -> string.

(** The [newNotif] of lines 208-214, stamped with the clock readings
    [k] and [k + 1]. *)
Definition stamp (user : User.t) (notif : Draft.t) (k : nat)
  : AppNotification.t :=
  {| AppNotification.id := ("n" ++ decimal (dateNow k))%string;
     AppNotification.userId := User.id user;
     AppNotification.type := Draft.type notif;
     AppNotification.title := Draft.title notif;
     AppNotification.message := Draft.message notif;
     AppNotification.timestamp := toISOString (dateNow (S k));
     AppNotification.isRead := false;
     AppNotification.link := Draft.link notif |}.

(** Lines 206-216. [closure] is the [data.currentUser] of the render
    in which the function was created. *)
Definition addNotification (closure : option User.t) (notif : Draft.t)
  (st : App) : App :=
  match closure with
  | None => st
  | Some user =>
      let newNotif := stamp user notif (clockReads st) in
      tick 2
        (setData (fun prev =>
                    {| users := users prev;
                       notifications := newNotif :: notifications prev;
                       currentUser := currentUser prev |}) st)
  end.

(** The notification built at lines 58-62. *)
Definition peerConnected (u : User.t) : Draft.t :=
  {| Draft.type := message;
     Draft.title := "Peer Connected";
     Draft.message := (User.name u ++ " has joined the peer network.")%string;
     Draft.link := None |}.

(** [l.some(existing => existing.id === x)]. *)
Definition some_id (l : list User.t) (x : string) : bool :=
  existsb (fun existing => String.eqb (User.id existing) x) l.

(** The test of line 57, against the list held by the ref. *)
Definition is_arrival (s : Socket) (cache : list User.t) (u : User.t) : bool :=
  negb (String.eqb (User.id u) (User.id (me s)))
  && negb (some_id cache (User.id u)).

(** The body of [newUsers.forEach] at lines 56-64. *)
Definition notifyIfNew (s : Socket) (st : App) (u : User.t) : App :=
  if is_arrival s (onlineUsersRef st) u
  then addNotification (Some (me s)) (peerConnected u) st
  else st.

(** [ws.onmessage], lines 48-72. *)
Definition ws_onmessage (s : Socket) (event : Inbound) (st : App) : App :=
  match event with
  | Unparseable => st
  | OtherMessage => st
  | PRESENCE_UPDATE newUsers =>
      let st' :=
        if Nat.ltb 0 (List.length (onlineUsersRef st))
        then fold_left (notifyIfNew s) newUsers st
        else st in
      setOnlineUsers newUsers st'
  end.

End Clock.

(** [ws.onopen], lines 44-46: what is sent to the hub. *)
Definition ws_onopen (s : Socket) : Outbound := USER_JOINED (me s).

(** [ws.onerror], lines 74-76: the error is logged. *)
Definition ws_onerror (st : App) : App := st.

(** Lines 218-223. *)
Definition markNotificationAsRead (id : string) (st : App) : App :=
  setData (fun prev =>
             {| users := users prev;
                notifications :=
                  map (fun n =>
                         if String.eqb (AppNotification.id n) id
                         then {| AppNotification.id := AppNotification.id n;
                                 AppNotification.userId := AppNotification.userId n;
                                 AppNotification.type := AppNotification.type n;
                                 AppNotification.title := AppNotification.title n;
                                 AppNotification.message := AppNotification.message n;
                                 AppNotification.timestamp := AppNotification.timestamp n;
                                 AppNotification.isRead := true;
                                 AppNotification.link := AppNotification.link n |}
                         else n)
                      (notifications prev);
                currentUser := currentUser prev |}) st.

(** Lines 225-227. *)
Definition clearNotifications (st : App) : App :=
  setData (fun prev =>
             {| users := users prev;
                notifications := [];
                currentUser := currentUser prev |}) st.

(** Line 423: [data.notifications.filter(n => !n.isRead).length]. *)
Definition unreadNotifications (st : App) : nat :=
  List.length (filter (fun n => negb (AppNotification.isRead n))
                 (notifications (data st))).

(** Lines 98-105. *)
Definition handleLogin (user : User.t) (st : App) : App :=
  let d := data st in
  if existsb (fun u => String.eqb (User.email u) (User.email user)) (users d)
  then setData (fun _ => {| users := users d;
                            notifications := notifications d;
                            currentUser := Some user |}) st
  else setData (fun _ => {| users := users d ++ [user];
                            notifications := notifications d;
                            currentUser := Some user |}) st.

(** Lines 107-114, the part that touches [data]. *)
Definition handleLogout (st : App) : App :=
  let d := data st in
  setData (fun _ => {| users := users d;
                       notifications := notifications d;
                       currentUser := None |}) st.

(** What [handleBulkUpdate] is handed by the data hub (its argument has
    type [any]): for each field of [AppData] kept here, the value to
    store when the object has that key. The import of a sheet sets
    [users] and [currentUser] and has no [notifications] key. *)
Record Patch := {
  new_users : option (list User.t);
  new_notifications : option (list AppNotification.t);
  new_currentUser : option (option User.t)
}.

Definition or_else {A} (o : option A) (d : A) : A :=
  match o with
  | Some a => a
  | None => d
  end.

(** Lines 239-241: [setData({ ...data, ...newData })]. *)
Definition handleBulkUpdate (newData : Patch) (st : App) : App :=
  let d := data st in
  setData (fun _ =>
             {| users := or_else (new_users newData) (users d);
                notifications :=
                  or_else (new_notifications newData) (notifications d);
                currentUser :=
                  or_else (new_currentUser newData) (currentUser d) |}) st.

(** The effect of lines 31-33. *)
Definition syncRef (st : App) : App :=
  {| data := data st;
     onlineUsers := onlineUsers st;
     onlineUsersRef := onlineUsers st;
     ws := ws st;
     clockReads := clockReads st |}.

(** The body of the effect of lines 35-77. *)
Definition presenceEffect (st : App) : App :=
  match currentUser (data st) with
  | None => setOnlineUsers [] st
  | Some user => set_ws (Some {| me := user; readyState := CONNECTING |}) st
  end.

(** The clean-up of lines 78-82. *)
Definition presenceCleanup (st : App) : App :=
  match ws st with
  | Some s =>
      match readyState s with
      | OPEN | CONNECTING =>
          set_ws (Some {| me := me s; readyState := CLOSING |}) st
      | _ => st
      end
  | None => st
  end.

(** The dependency of the presence effect: [data.currentUser?.id]. *)
Definition presenceDep (st : App) : option string :=
  option_map User.id (currentUser (data st)).

Definition same_dep (a b : option string) : bool :=
  match a, b with
  | None, None => true
  | Some x, Some y => String.eqb x y
  | _, _ => false
  end.

(** The effects that follow a render: the presence effect is cleaned
    up and run again when its dependency differs from [before]; the
    ref then catches up with [onlineUsers]. *)
Definition settle (before : option string) (st : App) : App :=
  syncRef (if same_dep before (presenceDep st) then st
           else presenceEffect (presenceCleanup st)).

(** First render: [useState(loadData())], [useState([])], [useRef([])],
    then every effect once. *)
Definition mount (saved : AppData) : App :=
  syncRef (presenceEffect
             {| data := saved;
                onlineUsers := [];
                onlineUsersRef := [];
                ws := None;
                clockReads := 0 |}).

Definition with_readyState (r : ReadyState) (st : App) : App :=
  match ws st with
  | Some s => set_ws (Some {| me := me s; readyState := r |}) st
  | None => st
  end.

(** What can happen to a mounted [App]. The login form is rendered only
    while nobody is logged in, the rest of the interface, the data hub
    included, only while somebody is. A message is dispatched only to
    an OPEN socket; an error closes the transport. The effects of a
    login, a logout and a bulk update run with the event; after a
    message the handler only calls [setOnlineUsers], and the effect that
    copies the list into the ref is an event of its own, [Effects],
    which may come after further messages. *)
Inductive Event :=
| Login (user : User.t)
| Logout
| WsOpen
| WsMessage (event : Inbound)
| WsError
| Notify (notif : Draft.t)
| MarkAsRead (id : string)
| ClearAll
| BulkUpdate (newData : Patch)
| Effects.

Section Run.

Variable dateNow : nat -> N.
Variable toISOString : N -> string.

(** A message that is handled and rendered before anything else
    happens: the handler, then the ref effect. *)
Definition receive (s : Socket) (event : Inbound) (st : App) : App :=
  syncRef (ws_onmessage dateNow toISOString s event st).

Definition step (st : App) (e : Event) : App :=
  match e with
  | Login user =>
      match currentUser (data st) with
      | None => settle (presenceDep st) (handleLogin user st)
      | Some _ => st
      end
  | Logout =>
      match currentUser (data st) with
      | Some _ => settle (presenceDep st) (handleLogout st)
      | None => st
      end
  | WsOpen =>
      match ws st with
      | Some s =>
          match readyState s with
          | CONNECTING => with_readyState OPEN st
          | _ => st
          end
      | None => st
      end
  | WsMessage event =>
      match ws st with
      | Some s =>
          match readyState s with
          | OPEN => ws_onmessage dateNow toISOString s event st
          | _ => st
          end
      | None => st
      end
  | WsError => with_readyState CLOSED (ws_onerror st)
  | Notify notif =>
      addNotification dateNow toISOString (currentUser (data st)) notif st
  | MarkAsRead id => markNotificationAsRead id st
  | ClearAll => clearNotifications st
  | BulkUpdate newData =>
      match currentUser (data st) with
      | Some _ => settle (presenceDep st) (handleBulkUpdate newData st)
      | None => st
      end
  | Effects => syncRef st
  end.

Definition run (es : list Event) (st : App) : App := fold_left step es st.

(** Events that are not a snapshot and do not end the session. *)
Definition quiet (e : Event) : bool :=
  match e with
  | Login _ | Logout | BulkUpdate _ => false
  | WsMessage (PRESENCE_UPDATE _) => false
  | WsError => false
  | _ => true
  end.

(** States in which the client has opened a connection and has not
    yet been handed a snapshot on it. *)
Inductive AwaitsFirstSnapshot : App -> Prop :=
| awaits_mount saved user :
    currentUser saved = Some user ->
    AwaitsFirstSnapshot (mount saved)
| awaits_login saved history user :
    currentUser (data (run history (mount saved))) = None ->
    AwaitsFirstSnapshot (step (run history (mount saved)) (Login user))
| awaits_quiet st e :
    AwaitsFirstSnapshot st -> quiet e = true ->
    AwaitsFirstSnapshot (step st e).

End Run.

Definition live (s : Socket) : bool :=
  match readyState s with
  | OPEN | CONNECTING => true
  | _ => false
  end.

(** While nobody is logged in the online list is empty and no socket
    is connecting or open. *)
Definition offline_when_logged_out (st : App) : Prop :=
  currentUser (data st) = None ->
  onlineUsers st = [] /\ forall s, ws st = Some s -> live s = false.

End Client.

(* ===================================================================== *)
(** * Concrete scenarios                                                  *)
(* ===================================================================== *)

Module Scenario.
Import Js.

(** A [USER_JOINED] message without a [user] field. *)
Definition bare_join : Hub.Frame :=
  Hub.Json (JObject 0 [("type", JString "USER_JOINED")]).

(** A [USER_JOINED] message whose [user] is an empty object. *)
Definition empty_user_join : Hub.Frame :=
  Hub.Json (JObject 0 [("type", JString "USER_JOINED"); ("user", JObject 1 [])]).

(** A message of a type the hub does not know. *)
Definition ping : Hub.Frame :=
  Hub.Json (JObject 0 [("type", JString "PING")]).

Definition two_open : Hub.State := Hub.accept 2 (Hub.accept 1 Hub.initial).

Definition ann : Hub.Identity :=
  {| Hub.id := "u1"; Hub.name := "Ann"; Hub.avatar := "ann.png" |}.

Definition ann_second_tab : Hub.Identity :=
  {| Hub.id := "u1"; Hub.name := "Ann (tab 2)"; Hub.avatar := "ann.png" |}.

(** Two open connections, the first of which has announced Ann. *)
Definition one_tab_announced : Hub.State :=
  Hub.run [Hub.Connect 1; Hub.Connect 2; Hub.Register 1 10 11 ann] Hub.initial.

(** Users of the client. *)
Definition alice : Client.User.t :=
  {| Client.User.id := "u1"; Client.User.name := "Alice";
     Client.User.email := "alice@example.org"; Client.User.avatar := "a.png" |}.

Definition bob : Client.User.t :=
  {| Client.User.id := "u2"; Client.User.name := "Bob";
     Client.User.email := "bob@example.org"; Client.User.avatar := "b.png" |}.

Definition carol : Client.User.t :=
  {| Client.User.id := "u3"; Client.User.name := "Carol";
     Client.User.email := "carol@example.org"; Client.User.avatar := "c.png" |}.

Definition dave : Client.User.t :=
  {| Client.User.id := "u4"; Client.User.name := "Dave";
     Client.User.email := "dave@example.org"; Client.User.avatar := "d.png" |}.

(** Stored data with nobody logged in, and with Alice logged in. *)
Definition nobody : Client.AppData :=
  {| Client.users := []; Client.notifications := [];
     Client.currentUser := None |}.

Definition alice_session : Client.AppData :=
  {| Client.users := [alice]; Client.notifications := [];
     Client.currentUser := Some alice |}.

(** A clock that advances by one millisecond per reading, and one that
    is read three times and more within the same millisecond. *)
Definition ticking (k : nat) : N := 1700000000000 + N.of_nat k.
Definition frozen (k : nat) : N := 1700000000000.

(** A stand-in for the formatting of dates. *)
Definition iso (ms : N) : string := Client.decimal ms.

Definition hub_launched : Client.Draft.t :=
  {| Client.Draft.type := Client.skill;
     Client.Draft.title := "New Skill Hub Launched";
     Client.Draft.message := "The hub is now active!";
     Client.Draft.link := None |}.

(** Alice's socket once it is open. *)
Definition alice_socket : Client.Socket :=
  {| Client.me := alice; Client.readyState := Client.OPEN |}.

Definition bob_socket : Client.Socket :=
  {| Client.me := bob; Client.readyState := Client.OPEN |}.

(** Alice's app with a stored session, once the socket has opened. *)
Definition alice_online : Client.App :=
  Client.run ticking iso [Client.WsOpen] (Client.mount alice_session).

(** The same after a first snapshot listing Bob and Carol, rendered. *)
Definition alice_sees_bob_carol : Client.App :=
  Client.run ticking iso
    [Client.WsOpen; Client.WsMessage (Client.PRESENCE_UPDATE [bob; carol]);
     Client.Effects]
    (Client.mount alice_session).

(** One browser used by Bob, then by Alice: Bob is notified of a new
    hub, logs out, Alice logs in. *)
Definition shared_browser : Client.App :=
  Client.run ticking iso
    [Client.Login bob; Client.Notify hub_launched; Client.Logout;
     Client.Login alice]
    (Client.mount nobody).

(** Three notifications added within one millisecond. *)
Definition three_at_once : Client.App :=
  Client.run frozen iso
    [Client.Notify hub_launched; Client.Notify hub_launched;
     Client.Notify hub_launched]
    (Client.mount alice_session).

End Scenario.

(* ===================================================================== *)
(** * The hub over sequences of events                                    *)
(* ===================================================================== *)

Module HubRun.
Import Js Hub.

(** The hub state after a sequence of events. An exception that leaves
    a handler ends the process; the fold goes on regardless, so it
    reaches every state the hub can reach. *)
Definition serve (es : list Event) (st : State) : State :=
  fold_left (fun s e => next (react e s)) es st.

(** [activeUsers.get(ws)]. *)
Fixpoint registered (ws : Conn) (entries : JsMap Conn Value) : option Value :=
  match entries with
  | [] => None
  | (k, v) :: rest => if Nat.eqb k ws then Some v else registered ws rest
  end.

End HubRun.

(* ===================================================================== *)
(** * What a snapshot adds to the notification list                       *)
(* ===================================================================== *)

Module Reconcile.
Import Client.

(** The entries of a snapshot that pass the test of line 57. *)
Definition arrivals (s : Socket) (cache next : list User.t) : list User.t :=
  filter (is_arrival s cache) next.

Section Clock.

Variable dateNow : nat -> N.
Variable toISOString : N -> string.

(** One "Peer Connected" notification per user, in the order of the
    calls, each call reading the clock twice from [k] on. *)
Fixpoint stampAll (user : User.t) (us : list User.t) (k : nat)
  : list AppNotification.t :=
  match us with
  | [] => []
  | u :: rest =>
      stamp dateNow toISOString user (peerConnected u) k
      :: stampAll user rest (2 + k)
  end.

End Clock.

(** The unread entries that carry a given id. *)
Definition unreadWithId (id : string) (ns : list AppNotification.t) : nat :=
  List.length
    (filter (fun n => negb (AppNotification.isRead n)
                      && String.eqb (AppNotification.id n) id) ns).

Definition emails (us : list User.t) : list string := map User.email us.

End Reconcile.

(* ===================================================================== *)
(** * The catalogue operations of [App.tsx]                               *)
(* ===================================================================== *)

Module Catalogue.

Inductive ContentType := video | pdf | live | external | gmeet.

Module Skill.
Record t := {
  id : string;
  name : string;
  description : string;
  category : string;
  icon : string;
  createdBy : string;
  prominentResourceId : option string
}.
End Skill.

Module ContentItem.
Record t := {
  id : string;
  skillId : string;
  type : ContentType;
  title : string;
  description : string;
  url : string;
  uploadedBy : string;
  uploaderName : string;
  timestamp : string;
  likes : Js.Double
}.
End ContentItem.

Module Comment.
Record t := {
  id : string;
  contentId : string;
  userId : string;
  userName : string;
  text : string;
  timestamp : string
}.
End Comment.

(** The catalogue fields of [AppData] ([store.ts]), which
    [Client.AppData] leaves out. *)
Record Shelf := {
  skills : list Skill.t;
  contents : list ContentItem.t;
  comments : list Comment.t
}.

(** [l.includes(x)] on strings. *)
Definition includes (l : list string) (x : string) : bool :=
  existsb (fun y => String.eqb y x) l.

Definition dquote : string := String (Ascii.ascii_of_nat 34) EmptyString.

(** [data.skills.find(s => s.id === skillId)]. *)
Definition findSkill (skillId : string) (l : list Skill.t) : option Skill.t :=
  find (fun s => String.eqb (Skill.id s) skillId) l.

(** Lines 138-145: the catalogue that [deleteSkill] stores. *)
Definition deleteSkill (skillId : string) (d : Shelf) : Shelf :=
  let updatedSkills :=
    filter (fun s => negb (String.eqb (Skill.id s) skillId)) (skills d) in
  let updatedContents :=
    filter (fun c => negb (String.eqb (ContentItem.skillId c) skillId))
           (contents d) in
  let contentIds :=
    map ContentItem.id
        (filter (fun c => String.eqb (ContentItem.skillId c) skillId)
                (contents d)) in
  let updatedComments :=
    filter (fun c => negb (includes contentIds (Comment.contentId c)))
           (comments d) in
  {| skills := updatedSkills;
     contents := updatedContents;
     comments := updatedComments |}.

(** Lines 148-152: the notification [deleteSkill] adds;
    [skill?.name || 'Skill'] falls back on an absent skill and on an
    empty name. *)
Definition hubRemoved (skillId : string) (d : Shelf) : Client.Draft.t :=
  let shown :=
    match findSkill skillId (skills d) with
    | Some s => if String.eqb (Skill.name s) "" then "Skill" else Skill.name s
    | None => "Skill"
    end in
  {| Client.Draft.type := Client.skill;
     Client.Draft.title := "Hub Removed";
     Client.Draft.message :=
       ("The " ++ dquote ++ shown ++ dquote ++ " hub has been deleted.")%string;
     Client.Draft.link := None |}.

(** Lines 174-178. *)
Definition deleteContent (contentId : string) (d : Shelf) : Shelf :=
  {| skills := skills d;
     contents :=
       filter (fun c => negb (String.eqb (ContentItem.id c) contentId))
              (contents d);
     comments :=
       filter (fun c => negb (String.eqb (Comment.contentId c) contentId))
              (comments d) |}.

(** Lines 186-189 and 197-200: the list that [toggleLearnSkill] and
    [toggleTeachSkill] put in the profile. *)
Definition toggled (skillNames : list string) (skillName : string)
  : list string :=
  if includes skillNames skillName
  then filter (fun s => negb (String.eqb s skillName)) skillNames
  else skillNames ++ [skillName].

(** Every comment is on a stored content; every content is in a stored
    skill hub. *)
Definition comments_attached (d : Shelf) : Prop :=
  forall c, In c (comments d) ->
            exists x, In x (contents d) /\ ContentItem.id x = Comment.contentId c.

Definition contents_attached (d : Shelf) : Prop :=
  forall x, In x (contents d) ->
            exists s, In s (skills d) /\ Skill.id s = ContentItem.skillId x.

End Catalogue.

(* ===================================================================== *)
(** * The peer directory ([Dashboard], [Network])                          *)
(* ===================================================================== *)

Module Directory.
Import Client.

(** The body of [onlineUsers.forEach] in [allPeers]. *)
Definition pushIfNew (merged : list User.t) (ou : User.t) : list User.t :=
  if some_id merged (User.id ou) then merged else merged ++ [ou].

(** [allPeers]: the stored users, then the online users whose id is
    not there yet. *)
Definition allPeers (users onlineUsers : list User.t) : list User.t :=
  fold_left pushIfNew onlineUsers users.

Definition ids (l : list User.t) : list string := map User.id l.

End Directory.

(* ===================================================================== *)
(** * Stored data ([store.ts])                                            *)
(* ===================================================================== *)

Module Store.
Import Js.

Definition APP_VERSION : string := "2.0.0-clean".

(** The constants of lines 18-32; their addresses are fixed when the
    module is loaded. *)
Definition INITIAL_SKILLSWAP_USERS : Value := JArray 1 [].
Definition INITIAL_SKILLS : Value := JArray 2 [].
Definition INITIAL_CONTENTS : Value := JArray 3 [].

Definition DEFAULT_PROPS : list (string * Value) :=
  [("version", JString APP_VERSION);
   ("users", INITIAL_SKILLSWAP_USERS);
   ("skills", INITIAL_SKILLS);
   ("contents", INITIAL_CONTENTS);
   ("comments", JArray 4 []);
   ("notifications", JArray 5 []);
   ("currentUser", JNull)].

Definition DEFAULT_DATA : Value := JObject 0 DEFAULT_PROPS.

(** Truthiness, as [if (x)] and [x || y] test it. *)
Definition truthy (v : Value) : bool :=
  match v with
  | JUndefined | JNull => false
  | JBool b => b
  | JNumber d => negb (is_zero d || is_nan d)
  | JString s => negb (String.eqb s "")
  | JArray _ _ | JObject _ _ => true
  end.

(** [a !== "literal"]. *)
Definition strict_neq_string (v : Value) (lit : string) : bool :=
  negb (strict_eq_string v lit).

Fixpoint indexed (i : nat) (items : list Value) : list (string * Value) :=
  match items with
  | [] => []
  | v :: rest => (Client.decimal (N.of_nat i), v) :: indexed (S i) rest
  end.

Fixpoint chars (s : string) : list Value :=
  match s with
  | EmptyString => []
  | String c rest => JString (String c EmptyString) :: chars rest
  end.

(** The own enumerable properties that [...v] copies. *)
Definition own_enumerable (v : Value) : list (string * Value) :=
  match v with
  | JObject _ props => props
  | JArray _ items => indexed 0 items
  | JString s => indexed 0 (chars s)
  | _ => []
  end.

(** [{ ...target, ...source }] continued: each property of the source
    is written over the target, new keys at the end. *)
Definition spread (target : list (string * Value)) (source : Value)
  : list (string * Value) :=
  fold_left (fun acc p => map_set String.eqb (fst p) (snd p) acc)
            (own_enumerable source) target.

Section LoadData.

(** [JSON.parse] on a stored text. *)
Variable JSON_parse : string -> Completion Value.

(** Lines 34-54. [saved] is what [localStorage.getItem] returns;
    [fresh] and [fresh'] are the addresses of the object literal of
    line 43 and of the array literal of line 46. *)
Definition loadData (saved : option string) (fresh fresh' : Ref) : Value :=
  match saved with
  | None => DEFAULT_DATA
  | Some text =>
      if String.eqb text "" then DEFAULT_DATA
      else
        match JSON_parse text with
        | Throw _ => DEFAULT_DATA
        | Normal parsed =>
            match get parsed "version" with
            | Throw _ => DEFAULT_DATA
            | Normal version =>
                if strict_neq_string version APP_VERSION then DEFAULT_DATA
                else
                  match get parsed "notifications" with
                  | Throw _ => DEFAULT_DATA
                  | Normal stored =>
                      JObject fresh
                        (map_set String.eqb "notifications"
                           (if truthy stored then stored else JArray fresh' [])
                           (spread (spread [] DEFAULT_DATA) parsed))
                  end
            end
        end
  end.

End LoadData.

End Store.

(* ===================================================================== *)
(** * Further scenarios                                                   *)
(* ===================================================================== *)

Module Cases.
Import Js.

(** A stored text and a parser that knows it: current version, a
    user list, no notifications field. *)
Definition stored_text : string := "{stored}".

Definition stored_value : Value :=
  JObject 7 [("version", JString Store.APP_VERSION);
             ("users", JArray 8 [JString "someone"])].

Definition parse_stored (text : string) : Completion Value :=
  if String.eqb text stored_text then Normal stored_value
  else Throw SyntaxError.

Definition maths : Catalogue.Skill.t :=
  {| Catalogue.Skill.id := "s1"; Catalogue.Skill.name := "Maths";
     Catalogue.Skill.description := ""; Catalogue.Skill.category := "General";
     Catalogue.Skill.icon := "m"; Catalogue.Skill.createdBy := "u1";
     Catalogue.Skill.prominentResourceId := None |}.

Definition lecture : Catalogue.ContentItem.t :=
  {| Catalogue.ContentItem.id := "c1"; Catalogue.ContentItem.skillId := "s1";
     Catalogue.ContentItem.type := Catalogue.video;
     Catalogue.ContentItem.title := "Lecture";
     Catalogue.ContentItem.description := ""; Catalogue.ContentItem.url := "";
     Catalogue.ContentItem.uploadedBy := "u1";
     Catalogue.ContentItem.uploaderName := "Alice";
     Catalogue.ContentItem.timestamp := ""; Catalogue.ContentItem.likes := 0%N |}.

Definition thanks : Catalogue.Comment.t :=
  {| Catalogue.Comment.id := "k1"; Catalogue.Comment.contentId := "c1";
     Catalogue.Comment.userId := "u2"; Catalogue.Comment.userName := "Bob";
     Catalogue.Comment.text := "Thanks"; Catalogue.Comment.timestamp := "" |}.

Definition small_shelf : Catalogue.Shelf :=
  {| Catalogue.skills := [maths]; Catalogue.contents := [lecture];
     Catalogue.comments := [thanks] |}.

(** Alice's app with one read and one unread notification. *)
Definition alice_two_notes : Client.App :=
  Client.run Scenario.ticking Scenario.iso
    [Client.Notify Scenario.hub_launched; Client.MarkAsRead "n1700000000000";
     Client.Notify Scenario.hub_launched]
    (Client.mount Scenario.alice_session).

(** A hub where connection 1 announced Ann and connection 2 announced
    her second tab. *)
Definition two_tabs : Hub.State :=
  HubRun.serve
    [Hub.Connection 1; Hub.Connection 2; Hub.Connection 3;
     Hub.Message 1 (Hub.announce 10 11 Scenario.ann);
     Hub.Message 2 (Hub.announce 20 21 Scenario.ann_second_tab)]
    Hub.initial.

(** The first peer of an imported sheet, and what the import hands to
    [handleBulkUpdate] (DataHub.tsx, lines 118-126). *)
Definition imported : Client.User.t :=
  {| Client.User.id := "u0_1700000000000"; Client.User.name := "Eve";
     Client.User.email := "eve@example.org";
     Client.User.avatar := "https://picsum.photos/seed/Eve/400" |}.

Definition sheet_import : Client.Patch :=
  {| Client.new_users := Some [imported];
     Client.new_notifications := None;
     Client.new_currentUser := Some (Some imported) |}.

(** Alice, with Bob and Carol cached, imports the sheet: the effect
    closes her socket and opens one for the imported user, which then
    opens. *)
Definition after_import : Client.App :=
  Client.run Scenario.ticking Scenario.iso
    [Client.BulkUpdate sheet_import; Client.WsOpen]
    Scenario.alice_sees_bob_carol.

(** Bob alone, then Bob and Carol again, with and without a render in
    between. *)
Definition rejoin_back_to_back : list Client.Event :=
  [Client.WsMessage (Client.PRESENCE_UPDATE [Scenario.bob]);
   Client.WsMessage (Client.PRESENCE_UPDATE [Scenario.bob; Scenario.carol])].

Definition rejoin_rendered : list Client.Event :=
  [Client.WsMessage (Client.PRESENCE_UPDATE [Scenario.bob]);
   Client.Effects;
   Client.WsMessage (Client.PRESENCE_UPDATE [Scenario.bob; Scenario.carol])].

(** A hub with two open connections, the first of which sent a
    [USER_JOINED] without a [user]. *)
Definition after_bare_join : Hub.State :=
  HubRun.serve
    [Hub.Connection 1; Hub.Connection 2; Hub.Message 1 Scenario.bare_join]
    Hub.initial.


End Cases.

(* ===================================================================== *)
(** * Properties of the JavaScript fragment                               *)
(* ===================================================================== *)

Section JsFacts.
Import Js.

Lemma nan_is_not_zero (d : Double) : is_nan d = true -> is_zero d = false.
Proof.
  unfold is_nan, is_zero.
  destruct (N.eqb_spec (exponent_bits d) 2047) as [E | E].
  - intros _. rewrite E. apply andb_false_l.
  - rewrite andb_false_l. discriminate.
Qed.

Lemma number_sameValueZero_refl (a : Double) : number_sameValueZero a a = true.
Proof.
  unfold number_sameValueZero. rewrite N.eqb_refl. apply orb_true_r.
Qed.

Lemma number_sameValueZero_sym (a b : Double) :
  number_sameValueZero a b = number_sameValueZero b a.
Proof.
  unfold number_sameValueZero.
  rewrite (andb_comm (is_nan a)), (andb_comm (is_zero a)), (N.eqb_sym a b).
  reflexivity.
Qed.

Lemma number_sameValueZero_trans (a b c : Double) :
  number_sameValueZero a b = true -> number_sameValueZero b c = true ->
  number_sameValueZero a c = true.
Proof.
  unfold number_sameValueZero.
  destruct (N.eqb_spec a b) as [-> | Hab]; [ intros _ H; exact H | ].
  destruct (N.eqb_spec b c) as [<- | Hbc].
  - intros H _. destruct (N.eqb_spec a b); [ contradiction | exact H ].
  - pose proof (nan_is_not_zero b) as Hb.
    destruct (is_nan a), (is_nan b), (is_nan c),
      (is_zero a), (is_zero b), (is_zero c); simpl; intros H1 H2;
      try reflexivity; try discriminate;
      specialize (Hb eq_refl); discriminate.
Qed.

Lemma sameValueZero_refl (a : Value) : sameValueZero a a = true.
Proof.
  destruct a; simpl; auto using number_sameValueZero_refl, String.eqb_refl,
    Nat.eqb_refl.
  destruct b; reflexivity.
Qed.

Lemma sameValueZero_sym (a b : Value) : sameValueZero a b = sameValueZero b a.
Proof.
  destruct a, b; simpl; try reflexivity.
  - destruct b, b0; reflexivity.
  - apply number_sameValueZero_sym.
  - apply String.eqb_sym.
  - apply Nat.eqb_sym.
  - apply Nat.eqb_sym.
Qed.

Lemma sameValueZero_trans (a b c : Value) :
  sameValueZero a b = true -> sameValueZero b c = true ->
  sameValueZero a c = true.
Proof.
  destruct a, b; simpl; try discriminate; destruct c; simpl;
    try discriminate; try reflexivity.
  - destruct b, b0, b1; simpl; congruence.
  - apply number_sameValueZero_trans.
  - rewrite !String.eqb_eq. congruence.
  - rewrite !Nat.eqb_eq. congruence.
  - rewrite !Nat.eqb_eq. congruence.
Qed.

Lemma sameValueZero_string_l (s : string) (v : Value) :
  sameValueZero (JString s) v = true -> v = JString s.
Proof.
  destruct v; simpl; try discriminate.
  rewrite String.eqb_eq. congruence.
Qed.

Lemma sameValueZero_string_r (s : string) (v : Value) :
  sameValueZero v (JString s) = true -> v = JString s.
Proof. rewrite sameValueZero_sym. apply sameValueZero_string_l. Qed.

(** [set] either overwrites under a key that is present, or appends. *)
Lemma map_set_keys {K V} (eqb : K -> K -> bool) (k : K) (v : V)
  (m : JsMap K V) :
  (map_keys (map_set eqb k v m) = map_keys m /\
   exists k', In k' (map_keys m) /\ eqb k' k = true)
  \/
  (map_set eqb k v m = m ++ [(k, v)] /\
   forall k', In k' (map_keys m) -> eqb k' k = false).
Proof.
  unfold map_keys.
  induction m as [| [k0 v0] m IH]; simpl.
  - right. split; [ reflexivity | intros k' [] ].
  - destruct (eqb k0 k) eqn:E.
    + left. split; [ reflexivity | exists k0; auto ].
    + destruct IH as [[Hk [k' [Hin Hk']]] | [Hm Hall]].
      * left. split; [ simpl; rewrite Hk; reflexivity | ].
        exists k'. auto.
      * right. split; [ rewrite Hm; reflexivity | ].
        intros k' [<- | Hin]; auto.
Qed.

Lemma map_set_has_value {K V} (eqb : K -> K -> bool) (k : K) (v : V)
  (m : JsMap K V) : In v (map_values (map_set eqb k v m)).
Proof.
  induction m as [| [k0 v0] m IH]; simpl; auto.
  destruct (eqb k0 k); simpl; auto.
Qed.

Lemma map_set_entry {K V} (eqb : K -> K -> bool) (k : K) (v : V)
  (m : JsMap K V) (p : K * V) :
  In p (map_set eqb k v m) ->
  In p m \/ (snd p = v /\ (fst p = k \/ eqb (fst p) k = true)).
Proof.
  induction m as [| [k0 v0] m IH]; simpl.
  - intros [<- | []]. right. simpl. auto.
  - destruct (eqb k0 k) eqn:E; simpl.
    + intros [<- | Hin]; [ right; simpl; auto | auto ].
    + intros [<- | Hin]; [ auto | destruct (IH Hin); auto ].
Qed.

Lemma map_set_values_in {K V} (eqb : K -> K -> bool) (k : K) (v : V)
  (m : JsMap K V) (x : V) :
  In x (map_values (map_set eqb k v m)) -> x = v \/ In x (map_values m).
Proof.
  induction m as [| [k0 v0] m IH]; simpl.
  - intros [<- | []]. auto.
  - destruct (eqb k0 k); simpl; intros [<- | Hin]; auto.
    destruct (IH Hin); auto.
Qed.

Lemma map_delete_values_in {K V} (eqb : K -> K -> bool) (k : K)
  (m : JsMap K V) (x : V) :
  In x (map_values (map_delete eqb k m)) -> In x (map_values m).
Proof.
  induction m as [| [k0 v0] m IH]; simpl; auto.
  destruct (eqb k0 k); simpl; auto.
  intros [<- | Hin]; auto.
Qed.

End JsFacts.

(* ===================================================================== *)
(** * Properties of the hub                                               *)
(* ===================================================================== *)

Section HubFacts.
Import Js Hub.

Lemma pairwise_distinct_snoc (ks : list Value) (k : Value) :
  pairwise_distinct ks ->
  (forall k', In k' ks -> sameValueZero k' k = false) ->
  pairwise_distinct (ks ++ [k]).
Proof.
  unfold pairwise_distinct.
  induction 1 as [| a l Ha Hl IH]; simpl; intros Hall.
  - constructor; constructor.
  - constructor.
    + apply Forall_app. split; [ exact Ha | ].
      constructor; [ apply Hall; auto | constructor ].
    + apply IH. auto.
Qed.

Lemma pairwise_distinct_NoDup (ks : list Value) :
  pairwise_distinct ks -> NoDup ks.
Proof.
  induction 1 as [| a l Ha Hl IH]; constructor; auto.
  intros Hin. rewrite Forall_forall in Ha.
  specialize (Ha a Hin). rewrite sameValueZero_refl in Ha. discriminate.
Qed.

Lemma map_set_distinct (k v : Value) (um : JsMap Value Value) :
  pairwise_distinct (map_keys um) ->
  pairwise_distinct (map_keys (map_set sameValueZero k v um)).
Proof.
  intros H.
  destruct (map_set_keys sameValueZero k v um) as [[Hk _] | [Hm Hall]].
  - rewrite Hk. exact H.
  - rewrite Hm. unfold map_keys. rewrite map_app. simpl.
    apply pairwise_distinct_snoc; assumption.
Qed.

Lemma map_set_keyed (k v : Value) (um : JsMap Value Value) :
  keyed um -> sameValueZero k (id_of v) = true ->
  keyed (map_set sameValueZero k v um).
Proof.
  unfold keyed. rewrite !Forall_forall. intros Hum Hk p Hp.
  apply map_set_entry in Hp. destruct Hp as [Hp | [Hv [Hf | Hf]]].
  - auto.
  - rewrite Hv, Hf. exact Hk.
  - rewrite Hv. apply sameValueZero_trans with k; assumption.
Qed.

Lemma get_id_of (v i : Value) : get v "id" = Normal i -> id_of v = i.
Proof. unfold id_of. intros ->. reflexivity. Qed.

Lemma collect_invariant (entries : JsMap Conn Value) :
  forall um um',
    collect entries um = Normal um' ->
    pairwise_distinct (map_keys um) -> keyed um ->
    pairwise_distinct (map_keys um') /\ keyed um'.
Proof.
  induction entries as [| [c user] rest IH]; simpl; intros um um' H Hd Hk.
  - inversion H; subst. auto.
  - destruct (get user "id") as [i | e] eqn:G; simpl in H; [ | discriminate ].
    apply IH in H; auto.
    + apply map_set_distinct. exact Hd.
    + apply map_set_keyed; [ exact Hk | ].
      rewrite (get_id_of _ _ G). apply sameValueZero_refl.
Qed.

Lemma distinct_ids_of_keyed (um : JsMap Value Value) :
  pairwise_distinct (map_keys um) -> keyed um ->
  pairwise_distinct (map id_of (map_values um)).
Proof.
  unfold pairwise_distinct, keyed, map_keys, map_values.
  induction um as [| [k v] um IH]; simpl; intros Hd Hk.
  - constructor.
  - inversion Hd as [| ? ? Hhd Htl]; subst.
    inversion Hk as [| ? ? Hkv Hrest]; subst. simpl in Hkv.
    constructor; [ | auto ].
    rewrite Forall_forall in *. intros i Hi.
    rewrite in_map_iff in Hi. destruct Hi as [w [<- Hw]].
    rewrite in_map_iff in Hw. destruct Hw as [[k' w'] [Hw' Hin]].
    simpl in Hw'. subst w'.
    specialize (Hrest _ Hin). simpl in Hrest.
    assert (Hne : sameValueZero k k' = false)
      by (apply Hhd; apply in_map_iff; exists (k', w); auto).
    destruct (sameValueZero (id_of v) (id_of w)) eqn:E; [ | reflexivity ].
    rewrite <- Hne. symmetry.
    apply sameValueZero_trans with (id_of v); [ exact Hkv | ].
    apply sameValueZero_trans with (id_of w); [ exact E | ].
    rewrite sameValueZero_sym. exact Hrest.
Qed.

(** Whatever the registry holds, a snapshot that is computed has no
    two entries with the same [id]. *)
Lemma snapshot_distinct_ids (entries : JsMap Conn Value) (users : list Value) :
  snapshot entries = Normal users -> pairwise_distinct (map id_of users).
Proof.
  unfold snapshot. destruct (collect entries []) as [um | e] eqn:C; simpl;
    [ | discriminate ].
  intros H. inversion H; subst.
  destruct (collect_invariant _ _ _ C) as [Hd Hk].
  - constructor.
  - constructor.
  - apply distinct_ids_of_keyed; assumption.
Qed.

Lemma readable_get (v : Value) (k : string) :
  readable v = true -> exists i, get v k = Normal i.
Proof. destruct v; simpl; try discriminate; eauto. Qed.

Lemma collect_readable (entries : JsMap Conn Value) :
  registry_readable entries = true ->
  forall um, exists um', collect entries um = Normal um'.
Proof.
  unfold registry_readable, map_values.
  induction entries as [| [c user] rest IH]; simpl; intros H um.
  - eauto.
  - apply andb_true_iff in H. destruct H as [Hu Hrest].
    destruct (readable_get user "id" Hu) as [i ->]. simpl. auto.
Qed.

Lemma snapshot_readable (entries : JsMap Conn Value) :
  registry_readable entries = true ->
  exists users, snapshot entries = Normal users.
Proof.
  intros H. unfold snapshot.
  destruct (collect_readable entries H []) as [um ->]. simpl. eauto.
Qed.

Lemma collect_app (l1 l2 : JsMap Conn Value) :
  forall um, collect (l1 ++ l2) um = bind (collect l1 um) (collect l2).
Proof.
  induction l1 as [| [c user] l1 IH]; simpl; intros um; [ reflexivity | ].
  destruct (get user "id"); simpl; auto.
Qed.

(** Keys are never removed during the fold, and every folded value
    leaves an entry under the key of its [id]. *)
Lemma collect_covers (entries : JsMap Conn Value) :
  forall um um',
    collect entries um = Normal um' ->
    (forall k, In k (map_keys um) -> In k (map_keys um')) /\
    (forall v, In v (map_values entries) ->
               exists k, In k (map_keys um') /\
                         sameValueZero k (id_of v) = true).
Proof.
  induction entries as [| [c user] rest IH]; simpl; intros um um' H.
  - inversion H; subst. split; [ auto | intros v [] ].
  - destruct (get user "id") as [i | e] eqn:G; simpl in H; [ | discriminate ].
    destruct (IH _ _ H) as [Hkeep Hcov].
    assert (Hgrow : forall k, In k (map_keys um) ->
                              In k (map_keys (map_set sameValueZero i user um))).
    { intros k Hk.
      destruct (map_set_keys sameValueZero i user um) as [[E _] | [E _]].
      - rewrite E. exact Hk.
      - rewrite E. unfold map_keys in *. rewrite map_app.
        apply in_or_app. auto. }
    split; [ auto | ].
    intros v [<- | Hv]; [ | auto ].
    rewrite (get_id_of _ _ G).
    destruct (map_set_keys sameValueZero i user um)
      as [[E [k' [Hin Hk']]] | [E _]].
    + exists k'. split; [ apply Hkeep; rewrite E; exact Hin | exact Hk' ].
    + exists i. split; [ | apply sameValueZero_refl ].
      apply Hkeep. rewrite E. unfold map_keys. rewrite map_app.
      apply in_or_app. right. simpl. auto.
Qed.

Lemma fan_out_open (cs : list (Conn * ReadyState)) (p : Payload) (c : Conn) :
  In (c, OPEN) cs -> In (c, p) (fan_out cs p).
Proof.
  intros H. unfold fan_out.
  apply in_map_iff. exists (c, OPEN). split; [ reflexivity | ].
  apply filter_In. split; [ exact H | reflexivity ].
Qed.

Lemma fan_out_payload (cs : list (Conn * ReadyState)) (p q : Payload)
  (c : Conn) : In (c, q) (fan_out cs p) -> q = p.
Proof.
  unfold fan_out. rewrite in_map_iff. intros [x [E _]]. congruence.
Qed.

Lemma register_readable (ws : Conn) (user : Value) (st : State) :
  readable user = true ->
  registry_readable (activeUsers st) = true ->
  registry_readable (activeUsers (register ws user st)) = true.
Proof.
  unfold registry_readable. rewrite !forallb_forall. simpl.
  intros Hu H x Hx. apply map_set_values_in in Hx.
  destruct Hx as [-> | Hx]; auto.
Qed.

Lemma unregister_readable (ws : Conn) (st : State) :
  registry_readable (activeUsers st) = true ->
  registry_readable (activeUsers (unregister ws st)) = true.
Proof.
  unfold registry_readable. rewrite !forallb_forall. simpl.
  intros H x Hx. apply map_delete_values_in in Hx. auto.
Qed.

Lemma on_message_announce (ws : Conn) (r r' : Ref) (u : Identity)
  (st : State) :
  on_message ws (announce r r' u) st =
  let st' := register ws (identity_value r' u) st in
  match broadcastPresence st' with
  | Throw e => {| next := st'; delivered := []; outcome := Logged e |}
  | Normal sends => {| next := st'; delivered := sends; outcome := Done |}
  end.
Proof. reflexivity. Qed.

Lemma on_message_announce_ok (ws : Conn) (r r' : Ref) (u : Identity)
  (st : State) (users : list Value) :
  snapshot (activeUsers (register ws (identity_value r' u) st)) = Normal users ->
  on_message ws (announce r r' u) st =
  {| next := register ws (identity_value r' u) st;
     delivered := fan_out (clients st) (PresenceUpdate users);
     outcome := Done |}.
Proof.
  intros H. rewrite on_message_announce. cbv zeta.
  unfold broadcastPresence. rewrite H. reflexivity.
Qed.

Lemma on_close_ok (ws : Conn) (st : State) (users : list Value) :
  snapshot (activeUsers (unregister ws st)) = Normal users ->
  on_close ws st =
  {| next := unregister ws st;
     delivered := fan_out (clients st) (PresenceUpdate users);
     outcome := Done |}.
Proof.
  intros H. unfold on_close, broadcastPresence. rewrite H. reflexivity.
Qed.

Lemma call_readable (c : Call) (st : State) :
  registry_readable (activeUsers st) = true ->
  registry_readable (activeUsers (next (call c st))) = true.
Proof.
  intros H. destruct c as [ws | ws r r' u | ws]; unfold call, event_of, react.
  - exact H.
  - rewrite on_message_announce. cbv zeta.
    assert (registry_readable
              (activeUsers (register ws (identity_value r' u) st)) = true)
      by (apply register_readable; [ reflexivity | exact H ]).
    destruct (broadcastPresence _); simpl; assumption.
  - unfold on_close.
    assert (registry_readable (activeUsers (unregister ws (drop ws st))) = true)
      by (apply unregister_readable; exact H).
    destruct (broadcastPresence _); simpl; assumption.
Qed.

Lemma run_readable (cs : list Call) :
  forall st, registry_readable (activeUsers st) = true ->
             registry_readable (activeUsers (run cs st)) = true.
Proof.
  unfold run. induction cs as [| c cs IH]; simpl; intros st H; [ exact H | ].
  apply IH. apply call_readable. exact H.
Qed.

End HubFacts.


(* ===================================================================== *)
(** * The hub: dedup, self-inclusion, malformed messages                  *)
(* ===================================================================== *)

Section HubClaims.
Import Js Hub.

(** Two connections announcing the same id collapse to one entry; the
    record announced by the later connection of the map survives. *)
Example duplicate_tabs_collapse :
  snapshot (activeUsers
              (run [Connect 1; Connect 2;
                    Register 1 10 11 Scenario.ann;
                    Register 2 20 21 Scenario.ann_second_tab] initial))
  = Normal [identity_value 21 Scenario.ann_second_tab].
Proof. reflexivity. Qed.

Lemma delivered_payload (e : Event) (st : State) (ws : Conn) (p : Payload) :
  In (ws, p) (delivered (react e st)) ->
  exists users,
    p = PresenceUpdate users /\
    snapshot (activeUsers (next (react e st))) = Normal users.
Proof.
  destruct e as [c | c message | c]; unfold react.
  - intros [].
  - unfold on_message. destruct message as [| data]; [ intros [] | ].
    destruct (get data "type") as [ty | e1]; [ | intros [] ].
    destruct (strict_eq_string ty "USER_JOINED"); [ | intros [] ].
    destruct (get data "user") as [user | e2]; [ | intros [] ].
    unfold broadcastPresence.
    destruct (snapshot (activeUsers (register c user st))) as [users | e3] eqn:E;
      simpl; [ | intros [] ].
    intros Hin. apply fan_out_payload in Hin. exists users. auto.
  - unfold on_close, broadcastPresence.
    destruct (snapshot (activeUsers (unregister c (drop c st))))
      as [users | e3] eqn:E; simpl; [ | intros [] ].
    intros Hin. apply fan_out_payload in Hin. exists users. auto.
Qed.

(** C2. Dedup invariant: whatever the hub has been through and whatever
    reaches it next, a payload it delivers carries the snapshot of its
    registry, and that snapshot has no two entries with the same id.
    After any sequence of connects, registers (handling of a well-formed
    USER_JOINED announce) and unregisters (close), the next such call
    ends normally and does compute this snapshot. *)
Theorem dedup_invariant :
  (forall (st : State) (e : Event) (ws : Conn) (p : Payload),
      In (ws, p) (delivered (react e st)) ->
      exists users,
        p = PresenceUpdate users /\
        snapshot (activeUsers (next (react e st))) = Normal users /\
        pairwise_distinct (map id_of users) /\
        NoDup (map id_of users))
  /\
  (forall (calls : list Call) (c : Call),
      let rx := call c (run calls initial) in
      exists users,
        snapshot (activeUsers (next rx)) = Normal users /\
        pairwise_distinct (map id_of users) /\
        NoDup (map id_of users) /\
        outcome rx = Done /\
        (forall ws p, In (ws, p) (delivered rx) -> p = PresenceUpdate users)).
Proof.
  split.
  - intros st e ws p Hin.
    destruct (delivered_payload e st ws p Hin) as [users [Hp Hs]].
    exists users. pose proof (snapshot_distinct_ids _ _ Hs) as Hd.
    auto using pairwise_distinct_NoDup.
  - intros calls c rx.
    assert (Hst : registry_readable (activeUsers (run calls initial)) = true)
      by (apply run_readable; reflexivity).
    subst rx. revert Hst. generalize (run calls initial) as st. intros st Hst.
    destruct c as [ws | ws r r' u | ws]; unfold call, event_of, react.
    + destruct (snapshot_readable _ Hst) as [users Hs]. exists users. simpl.
      pose proof (snapshot_distinct_ids _ _ Hs) as Hd.
      repeat split; auto using pairwise_distinct_NoDup. intros ? ? [].
    + assert (Hreg : registry_readable
                       (activeUsers (register ws (identity_value r' u) st)) = true)
        by (apply register_readable; [ reflexivity | exact Hst ]).
      destruct (snapshot_readable _ Hreg) as [users Hs]. exists users.
      rewrite (on_message_announce_ok _ _ _ _ _ _ Hs). simpl.
      pose proof (snapshot_distinct_ids _ _ Hs) as Hd.
      repeat split; auto using pairwise_distinct_NoDup.
      intros c p Hin. apply fan_out_payload in Hin. exact Hin.
    + assert (Hreg : registry_readable
                       (activeUsers (unregister ws (drop ws st))) = true)
        by (apply unregister_readable; exact Hst).
      destruct (snapshot_readable _ Hreg) as [users Hs]. exists users.
      rewrite (on_close_ok _ _ _ Hs). simpl.
      pose proof (snapshot_distinct_ids _ _ Hs) as Hd.
      repeat split; auto using pairwise_distinct_NoDup.
      intros c p Hin. apply fan_out_payload in Hin. exact Hin.
Qed.

(** C2 at two tabs of the same user: the payload delivered to the
    first connection when the second one announces. *)
Lemma dedup_invariant_witness :
  exists users,
    PresenceUpdate [identity_value 21 Scenario.ann_second_tab]
      = PresenceUpdate users /\
    snapshot (activeUsers
                (next (react (Message 2 (announce 20 21 Scenario.ann_second_tab))
                         Scenario.one_tab_announced))) = Normal users /\
    pairwise_distinct (map id_of users) /\
    NoDup (map id_of users).
Proof.
  apply (proj1 dedup_invariant Scenario.one_tab_announced
           (Message 2 (announce 20 21 Scenario.ann_second_tab)) 1
           (PresenceUpdate [identity_value 21 Scenario.ann_second_tab])).
  simpl. left. reflexivity.
Defined.

(** Self-inclusion where the registry holds only readable values: when
    the hub processes the announce of an open connection, the handler
    ends normally, the payload goes to every open connection, the
    announcing one included, and its snapshot has an entry with the
    announced id; on a first announce that entry is the announced
    record itself. *)
Lemma no_self_exclusion (st : State) (ws : Conn) (r r' : Ref)
  (u : Identity) :
  registry_readable (activeUsers st) = true ->
  In (ws, OPEN) (clients st) ->
  let rx := on_message ws (announce r r' u) st in
  exists users,
    outcome rx = Done /\
    snapshot (activeUsers (next rx)) = Normal users /\
    (forall c, In (c, OPEN) (clients st) ->
               In (c, PresenceUpdate users) (delivered rx)) /\
    In (ws, PresenceUpdate users) (delivered rx) /\
    (exists v, In v users /\ id_of v = JString (id u)) /\
    (~ In ws (map_keys (activeUsers st)) -> In (identity_value r' u) users).
Proof.
  intros Hreg Hopen rx. subst rx.
  set (st' := register ws (identity_value r' u) st).
  assert (Hreg' : registry_readable (activeUsers st') = true)
    by (apply register_readable; [ reflexivity | exact Hreg ]).
  destruct (snapshot_readable _ Hreg') as [users Hs].
  rewrite (on_message_announce_ok _ _ _ _ _ _ Hs). simpl.
  exists users.
  split; [ reflexivity | ]. split; [ exact Hs | ].
  split; [ intros c Hc; apply fan_out_open; exact Hc | ].
  split; [ apply fan_out_open; exact Hopen | ].
  unfold snapshot in Hs.
  destruct (collect (activeUsers st') []) as [um | e] eqn:C; simpl in Hs;
    [ | discriminate ].
  inversion Hs; subst users. clear Hs. split.
  - destruct (collect_covers _ _ _ C) as [_ Hcov].
    destruct (collect_invariant _ _ _ C) as [_ Hk];
      [ constructor | constructor | ].
    destruct (Hcov (identity_value r' u)) as [k [Hin Hsame]].
    { unfold st'. simpl. apply map_set_has_value. }
    change (id_of (identity_value r' u)) with (JString (id u)) in Hsame.
    apply sameValueZero_string_r in Hsame. subst k.
    unfold map_keys in Hin. rewrite in_map_iff in Hin.
    destruct Hin as [[k v] [Hkv Hp]]. simpl in Hkv. subst k.
    exists v. split.
    + unfold map_values. apply in_map_iff. exists (JString (id u), v). auto.
    + unfold keyed in Hk. rewrite Forall_forall in Hk.
      specialize (Hk _ Hp). simpl in Hk.
      apply sameValueZero_string_l in Hk. exact Hk.
  - intros Hfresh. unfold st' in C. simpl in C.
    destruct (map_set_keys Nat.eqb ws (identity_value r' u) (activeUsers st))
      as [[_ [k' [Hin Hk']]] | [E _]].
    + apply Nat.eqb_eq in Hk'. subst k'. contradiction.
    + rewrite E, collect_app in C.
      destruct (collect (activeUsers st) []) as [um1 | e1]; simpl in C;
        [ | discriminate ].
      inversion C; subst um. apply map_set_has_value.
Qed.

(** The same at a hub with two open connections where the second
    announces. *)
Lemma no_self_exclusion_witness :
  exists users,
    outcome (on_message 2 (announce 0 1 Scenario.ann) Scenario.two_open) = Done /\
    snapshot (activeUsers
                (next (on_message 2 (announce 0 1 Scenario.ann)
                         Scenario.two_open))) = Normal users /\
    (forall c, In (c, OPEN) (clients Scenario.two_open) ->
               In (c, PresenceUpdate users)
                  (delivered (on_message 2 (announce 0 1 Scenario.ann)
                                Scenario.two_open))) /\
    In (2, PresenceUpdate users)
       (delivered (on_message 2 (announce 0 1 Scenario.ann) Scenario.two_open)) /\
    (exists v, In v users /\ id_of v = JString (id Scenario.ann)) /\
    (~ In 2 (map_keys (activeUsers Scenario.two_open)) ->
     In (identity_value 1 Scenario.ann) users).
Proof.
  apply (no_self_exclusion Scenario.two_open 2 0 1 Scenario.ann).
  - reflexivity.
  - simpl. right. left. reflexivity.
Defined.

(** Frames the hub drops: text that does not parse, and parsed values
    that are not a USER_JOINED message. Nothing is registered, nothing is
    sent, and the handler does not throw. *)
Lemma on_message_garbled (ws : Conn) (st : State) :
  on_message ws Garbled st =
  {| next := st; delivered := []; outcome := Logged SyntaxError |}.
Proof. reflexivity. Qed.

Lemma on_message_not_join (ws : Conn) (data : Value) (st : State) :
  (forall ty, get data "type" = Normal ty ->
              strict_eq_string ty "USER_JOINED" = false) ->
  let rx := on_message ws (Json data) st in
  next rx = st /\ delivered rx = [] /\
  (outcome rx = Done \/ outcome rx = Logged TypeError).
Proof.
  intros H rx. subst rx. unfold on_message.
  destruct (get data "type") as [ty | e] eqn:G.
  - rewrite (H ty eq_refl). simpl. auto.
  - simpl. destruct data; simpl in G; try discriminate;
      inversion G; subst; auto.
Qed.

Example unknown_type_is_dropped :
  on_message 1 Scenario.ping Scenario.one_tab_announced =
  {| next := Scenario.one_tab_announced; delivered := []; outcome := Done |}.
Proof. reflexivity. Qed.

Lemma on_message_never_uncaught (ws : Conn) (message : Frame) (st : State) :
  forall e, outcome (on_message ws message st) <> Uncaught e.
Proof.
  intros e. unfold on_message. destruct message as [| data]; simpl;
    [ discriminate | ].
  destruct (get data "type") as [ty | e1]; simpl; [ | discriminate ].
  destruct (strict_eq_string ty "USER_JOINED"); simpl; [ | discriminate ].
  destruct (get data "user") as [user | e2]; simpl; [ | discriminate ].
  destruct (broadcastPresence _); simpl; discriminate.
Qed.

(** C6, at the failing input. A USER_JOINED message without a [user]
    field is not dropped: [undefined] is stored as the sender's identity,
    the broadcast that follows throws inside the [try], and the next
    close of another connection throws outside any [try]. With an empty
    object as [user] the registry changes and a broadcast goes out. *)
Theorem join_without_user_is_registered :
  let rx := on_message 1 Scenario.bare_join Scenario.two_open in
  activeUsers Scenario.two_open = [] /\
  activeUsers (next rx) = [(1, JUndefined)] /\
  outcome rx = Logged TypeError /\
  delivered rx = [] /\
  outcome (call (Unregister 2) (next rx)) = Uncaught TypeError /\
  let rx' := on_message 1 Scenario.empty_user_join Scenario.two_open in
  activeUsers (next rx') = [(1, JObject 1 [])] /\
  outcome rx' = Done /\
  delivered rx' = [(1, PresenceUpdate [JObject 1 []]);
                   (2, PresenceUpdate [JObject 1 []])].
Proof. repeat split. Qed.

End HubClaims.


(* ===================================================================== *)
(** * Properties of the client                                            *)
(* ===================================================================== *)

Section ClientFacts.
Import Client.

Variable dateNow : nat -> N.
Variable toISOString : N -> string.

Let addNotification := Client.addNotification dateNow toISOString.
Let notifyIfNew := Client.notifyIfNew dateNow toISOString.
Let ws_onmessage := Client.ws_onmessage dateNow toISOString.
Let receive := Client.receive dateNow toISOString.
Let step := Client.step dateNow toISOString.
Let run := Client.run dateNow toISOString.
Let stamp := Client.stamp dateNow toISOString.

Lemma decimal_inj (a b : N) : decimal a = decimal b -> a = b.
Proof.
  unfold decimal. intros H.
  apply DecimalN.Unsigned.to_uint_inj.
  apply (f_equal NilEmpty.uint_of_string) in H.
  rewrite !NilEmpty.usu in H. congruence.
Qed.

Lemma some_id_in (cache : list User.t) (u : User.t) :
  In u cache -> some_id cache (User.id u) = true.
Proof.
  intros H. unfold some_id. apply existsb_exists.
  exists u. split; [ exact H | apply String.eqb_refl ].
Qed.

Lemma some_id_absent (cache : list User.t) (x : string) :
  (forall u, In u cache -> User.id u <> x) -> some_id cache x = false.
Proof.
  intros H. unfold some_id.
  destruct (existsb _ cache) eqn:E; [ | reflexivity ].
  apply existsb_exists in E. destruct E as [u [Hin Hid]].
  apply String.eqb_eq in Hid. exfalso. exact (H u Hin Hid).
Qed.

Lemma known_is_no_arrival (s : Socket) (cache : list User.t) (u : User.t) :
  In u cache -> is_arrival s cache u = false.
Proof.
  intros H. unfold is_arrival. rewrite (some_id_in _ _ H).
  apply andb_false_r.
Qed.

Lemma self_is_no_arrival (s : Socket) (cache : list User.t) (u : User.t) :
  User.id u = User.id (me s) -> is_arrival s cache u = false.
Proof.
  intros H. unfold is_arrival. rewrite H, String.eqb_refl. reflexivity.
Qed.

Lemma stranger_is_arrival (s : Socket) (cache : list User.t) (u : User.t) :
  User.id u <> User.id (me s) ->
  (forall v, In v cache -> User.id v <> User.id u) ->
  is_arrival s cache u = true.
Proof.
  intros Hme Hcache. unfold is_arrival.
  rewrite (some_id_absent _ _ Hcache).
  apply String.eqb_neq in Hme. rewrite Hme. reflexivity.
Qed.

Lemma notifyIfNew_ref (s : Socket) (st : App) (u : User.t) :
  onlineUsersRef (notifyIfNew s st u) = onlineUsersRef st.
Proof.
  unfold notifyIfNew, Client.notifyIfNew.
  destruct (is_arrival _ _ _); reflexivity.
Qed.

Lemma forEach_no_arrival (s : Socket) (l : list User.t) :
  forall st,
    Forall (fun u => is_arrival s (onlineUsersRef st) u = false) l ->
    fold_left (notifyIfNew s) l st = st.
Proof.
  induction l as [| u l IH]; simpl; intros st H; [ reflexivity | ].
  inversion H as [| ? ? Hu Hl]; subst.
  assert (E : notifyIfNew s st u = st)
    by (unfold notifyIfNew, Client.notifyIfNew; rewrite Hu; reflexivity).
  rewrite E. apply IH. exact Hl.
Qed.

Lemma forEach_one_arrival (s : Socket) (l1 l2 : list User.t) (c : User.t)
  (st : App) :
  Forall (fun u => is_arrival s (onlineUsersRef st) u = false) l1 ->
  is_arrival s (onlineUsersRef st) c = true ->
  Forall (fun u => is_arrival s (onlineUsersRef st) u = false) l2 ->
  fold_left (notifyIfNew s) (l1 ++ c :: l2) st =
  addNotification (Some (me s)) (peerConnected c) st.
Proof.
  intros H1 Hc H2. rewrite fold_left_app, (forEach_no_arrival s l1 st H1).
  simpl.
  assert (E : notifyIfNew s st c =
              addNotification (Some (me s)) (peerConnected c) st)
    by (unfold notifyIfNew, Client.notifyIfNew; rewrite Hc; reflexivity).
  rewrite E. apply forEach_no_arrival. exact H2.
Qed.

(** With an empty cache the handler only publishes the snapshot. *)
Lemma onmessage_empty_cache (s : Socket) (st : App) (S : list User.t) :
  onlineUsersRef st = [] ->
  ws_onmessage s (PRESENCE_UPDATE S) st = setOnlineUsers S st.
Proof.
  intros H. unfold ws_onmessage, Client.ws_onmessage. rewrite H. reflexivity.
Qed.

Lemma onmessage_no_arrival (s : Socket) (st : App) (S : list User.t) :
  Forall (fun u => is_arrival s (onlineUsersRef st) u = false) S ->
  ws_onmessage s (PRESENCE_UPDATE S) st = setOnlineUsers S st.
Proof.
  intros H. unfold ws_onmessage, Client.ws_onmessage.
  destruct (Nat.ltb 0 (List.length (onlineUsersRef st))); [ | reflexivity ].
  fold notifyIfNew. rewrite (forEach_no_arrival s S st H). reflexivity.
Qed.

Lemma onmessage_one_arrival (s : Socket) (st : App) (l1 l2 : list User.t)
  (c : User.t) :
  onlineUsersRef st <> [] ->
  Forall (fun u => is_arrival s (onlineUsersRef st) u = false) l1 ->
  is_arrival s (onlineUsersRef st) c = true ->
  Forall (fun u => is_arrival s (onlineUsersRef st) u = false) l2 ->
  ws_onmessage s (PRESENCE_UPDATE (l1 ++ c :: l2)) st =
  setOnlineUsers (l1 ++ c :: l2)
    (addNotification (Some (me s)) (peerConnected c) st).
Proof.
  intros Hne H1 Hc H2. unfold ws_onmessage, Client.ws_onmessage.
  destruct (onlineUsersRef st) as [| x cache] eqn:E; [ contradiction | ].
  simpl Nat.ltb. cbv iota. fold notifyIfNew. rewrite <- E in *.
  rewrite (forEach_one_arrival s l1 l2 c st H1 Hc H2). reflexivity.
Qed.

(** A snapshot {A, B, C} read against a cache {A, B}. *)
Lemma split_new_arrival (s : Socket) (a b c : User.t)
  (cache next : list User.t) :
  Permutation cache [a; b] -> Permutation next [a; b; c] ->
  User.id c <> User.id (me s) ->
  User.id c <> User.id a -> User.id c <> User.id b ->
  exists l1 l2,
    next = l1 ++ c :: l2 /\
    Forall (fun u => is_arrival s cache u = false) l1 /\
    is_arrival s cache c = true /\
    Forall (fun u => is_arrival s cache u = false) l2.
Proof.
  intros Hcache Hnext Hme Ha Hb.
  assert (Hc : In c next).
  { apply (Permutation_in c (Permutation_sym Hnext)). simpl. auto. }
  destruct (in_split _ _ Hc) as [l1 [l2 E]]. exists l1, l2.
  assert (Hrest : Permutation [a; b] (l1 ++ l2)).
  { apply Permutation_cons_app_inv with c. rewrite <- E.
    apply Permutation_trans with [a; b; c];
      [ apply (Permutation_cons_append [a; b] c)
      | apply Permutation_sym; exact Hnext ]. }
  assert (Hold : forall u, In u (l1 ++ l2) -> is_arrival s cache u = false).
  { intros u Hu. apply known_is_no_arrival.
    apply (Permutation_in u (Permutation_sym Hcache)).
    apply (Permutation_in u (Permutation_sym Hrest)). exact Hu. }
  split; [ exact E | ]. split; [ | split ].
  - apply Forall_forall. intros u Hu. apply Hold. apply in_or_app. auto.
  - apply stranger_is_arrival; [ exact Hme | ].
    intros v Hv. apply (Permutation_in v Hcache) in Hv.
    simpl in Hv. destruct Hv as [<- | [<- | []]]; congruence.
  - apply Forall_forall. intros u Hu. apply Hold. apply in_or_app. auto.
Qed.

Lemma receive_quiet (s : Socket) (st : App) :
  receive s Unparseable st = syncRef st /\
  receive s OtherMessage st = syncRef st.
Proof. split; reflexivity. Qed.

Lemma login_result (st : App) (user : User.t) :
  currentUser (data st) = None ->
  step st (Login user) =
  {| data := data (handleLogin user st);
     onlineUsers := onlineUsers st;
     onlineUsersRef := onlineUsers st;
     ws := Some {| me := user; readyState := CONNECTING |};
     clockReads := clockReads st |} /\
  currentUser (data (handleLogin user st)) = Some user /\
  notifications (data (handleLogin user st)) = notifications (data st).
Proof.
  intros H. unfold step, Client.step, settle, presenceDep. rewrite H.
  unfold handleLogin.
  destruct (existsb _ (users (data st))); simpl;
    unfold presenceEffect, presenceCleanup; simpl;
    (destruct (ws st) as [sock |]; [ destruct (readyState sock) | ]);
    simpl; auto.
Qed.

Lemma logout_result (st : App) (user : User.t) :
  currentUser (data st) = Some user ->
  step st Logout =
  {| data := data (handleLogout st);
     onlineUsers := [];
     onlineUsersRef := [];
     ws := ws (presenceCleanup st);
     clockReads := clockReads st |}.
Proof.
  intros H. unfold step, Client.step, settle, presenceDep. rewrite H.
  simpl. unfold presenceEffect, presenceCleanup. simpl.
  destruct (ws st) as [sock |]; [ destruct (readyState sock) | ];
    reflexivity.
Qed.

Lemma cleanup_not_live (st : App) (s : Socket) :
  ws (presenceCleanup st) = Some s -> live s = false.
Proof.
  unfold presenceCleanup.
  destruct (ws st) as [sock |] eqn:E; [ | rewrite E; discriminate ].
  destruct (readyState sock) eqn:R; simpl; try rewrite E;
    intros H; inversion H; subst; unfold live; simpl; try rewrite R;
    reflexivity.
Qed.

Lemma mount_offline (saved : AppData) : offline_when_logged_out (mount saved).
Proof.
  unfold offline_when_logged_out, mount, presenceEffect. simpl.
  destruct (currentUser saved) as [u |] eqn:C; simpl; rewrite ?C.
  - discriminate.
  - intros _. split; [ reflexivity | discriminate ].
Qed.

Lemma forEach_frame (s : Socket) (l : list User.t) :
  forall st,
    let st' := fold_left (notifyIfNew s) l st in
    onlineUsers st' = onlineUsers st /\
    onlineUsersRef st' = onlineUsersRef st /\
    ws st' = ws st /\
    currentUser (data st') = currentUser (data st) /\
    users (data st') = users (data st).
Proof.
  induction l as [| u l IH]; simpl; intros st; [ auto 6 | ].
  specialize (IH (notifyIfNew s st u)). simpl in IH.
  destruct IH as [H1 [H2 [H3 [H4 H5]]]].
  rewrite H1, H2, H3, H4, H5.
  unfold notifyIfNew, Client.notifyIfNew.
  destruct (is_arrival _ _ _); simpl; auto 6.
Qed.

Lemma receive_frame (s : Socket) (event : Inbound) (st : App) :
  let st' := receive s event st in
  onlineUsersRef st' = onlineUsers st' /\
  ws st' = ws st /\
  currentUser (data st') = currentUser (data st).
Proof.
  unfold receive, Client.receive. destruct event as [| | S]; simpl; auto.
  destruct (Nat.ltb 0 (List.length (onlineUsersRef st))); simpl; auto.
  destruct (forEach_frame s S st) as [_ [_ [H3 [H4 _]]]]. auto.
Qed.

Lemma onmessage_frame (s : Socket) (event : Inbound) (st : App) :
  let st' := ws_onmessage s event st in
  onlineUsersRef st' = onlineUsersRef st /\
  ws st' = ws st /\
  currentUser (data st') = currentUser (data st).
Proof.
  unfold ws_onmessage, Client.ws_onmessage.
  destruct event as [| | S]; simpl; auto.
  destruct (Nat.ltb 0 (List.length (onlineUsersRef st))); simpl; auto.
  destruct (forEach_frame s S st) as [_ [H2 [H3 [H4 _]]]]. auto.
Qed.

Lemma bulk_result (st : App) (user : User.t) (newData : Patch) :
  currentUser (data st) = Some user ->
  let st' := step st (BulkUpdate newData) in
  data st' = data (handleBulkUpdate newData st) /\
  match currentUser (data (handleBulkUpdate newData st)) with
  | None =>
      onlineUsers st' = [] /\ onlineUsersRef st' = [] /\
      ws st' = ws (presenceCleanup st)
  | Some user' =>
      onlineUsers st' = onlineUsers st /\
      onlineUsersRef st' = onlineUsers st /\
      ws st' =
        if String.eqb (User.id user) (User.id user') then ws st
        else Some {| me := user'; readyState := CONNECTING |}
  end.
Proof.
  intros H. unfold step, Client.step, settle, presenceDep. rewrite H.
  unfold handleBulkUpdate. simpl.
  destruct (or_else (new_currentUser newData) (currentUser (data st)))
    as [user' |]; simpl.
  - destruct (String.eqb (User.id user) (User.id user')); simpl; auto.
    unfold presenceEffect, presenceCleanup. simpl.
    destruct (ws st) as [sock |]; [ destruct (readyState sock) | ];
      simpl; auto.
  - unfold presenceEffect, presenceCleanup. simpl.
    destruct (ws st) as [sock |]; [ destruct (readyState sock) | ];
      simpl; auto.
Qed.

Lemma step_offline (st : App) (e : Event) :
  offline_when_logged_out st -> offline_when_logged_out (step st e).
Proof.
  intros Hst. pose proof Hst as Hout.
  unfold offline_when_logged_out in Hout |- *.
  destruct e as [user | | | event | | notif | id | | newData | ].
  - destruct (currentUser (data st)) as [u |] eqn:C.
    + unfold step, Client.step. rewrite C. exact Hst.
    + destruct (login_result st user C) as [-> [Hc _]].
      simpl. rewrite Hc. discriminate.
  - destruct (currentUser (data st)) as [u |] eqn:C.
    + rewrite (logout_result st u C). simpl.
      intros _. split; [ reflexivity | apply cleanup_not_live ].
    + unfold step, Client.step. rewrite C. exact Hst.
  - unfold step, Client.step.
    destruct (ws st) as [sock |] eqn:W; [ | exact Hst ].
    destruct (readyState sock) eqn:R; try exact Hst.
    unfold with_readyState. rewrite W. simpl.
    intros C. destruct (Hout C) as [_ Hlive].
    specialize (Hlive sock eq_refl). unfold live in Hlive.
    rewrite R in Hlive. discriminate.
  - unfold step, Client.step.
    destruct (ws st) as [sock |] eqn:W; [ | exact Hst ].
    destruct (readyState sock) eqn:R; try exact Hst.
    destruct (onmessage_frame sock event st) as [_ [_ H3]].
    fold ws_onmessage. rewrite H3. intros C. destruct (Hout C) as [_ Hlive].
    specialize (Hlive sock eq_refl). unfold live in Hlive.
    rewrite R in Hlive. discriminate.
  - unfold step, Client.step, ws_onerror, with_readyState.
    destruct (ws st) as [sock |] eqn:W; [ | exact Hst ].
    simpl. intros C. destruct (Hout C) as [Hnil _]. split; [ exact Hnil | ].
    intros s0 H. inversion H; subst. reflexivity.
  - unfold step, Client.step, Client.addNotification.
    destruct (currentUser (data st)) eqn:C; [ | exact Hst ].
    simpl. rewrite C. discriminate.
  - exact Hst.
  - exact Hst.
  - destruct (currentUser (data st)) as [u |] eqn:C.
    + destruct (bulk_result st u newData C) as [Hd Hrest].
      rewrite Hd.
      destruct (currentUser (data (handleBulkUpdate newData st)));
        [ discriminate | ].
      destruct Hrest as [Ho [_ Hw]]. intros _. split; [ exact Ho | ].
      rewrite Hw. apply cleanup_not_live.
    + unfold step, Client.step. rewrite C. exact Hst.
  - exact Hst.
Qed.

Lemma run_offline (es : list Event) :
  forall st, offline_when_logged_out st -> offline_when_logged_out (run es st).
Proof.
  unfold run, Client.run.
  induction es as [| e es IH]; simpl; intros st H; [ exact H | ].
  apply IH. apply step_offline. exact H.
Qed.

Lemma quiet_keeps_cache (st : App) (e : Event) :
  quiet e = true ->
  onlineUsers st = [] -> onlineUsersRef st = [] ->
  onlineUsers (step st e) = [] /\ onlineUsersRef (step st e) = [].
Proof.
  intros Hq Ho Hr.
  destruct e as [user | | | event | | notif | id | | newData | ];
    simpl in Hq; try discriminate; unfold step, Client.step.
  - destruct (ws st) as [sock |] eqn:W; [ | auto ].
    destruct (readyState sock); auto.
    unfold with_readyState. rewrite W. simpl. auto.
  - destruct (ws st) as [sock |] eqn:W; [ | auto ].
    destruct (readyState sock); auto.
    destruct event; try discriminate; simpl; auto.
  - unfold Client.addNotification.
    destruct (currentUser (data st)); simpl; auto.
  - simpl. auto.
  - simpl. auto.
  - simpl. auto.
Qed.

Lemma awaiting_has_empty_cache (st : App) :
  AwaitsFirstSnapshot dateNow toISOString st ->
  onlineUsers st = [] /\ onlineUsersRef st = [].
Proof.
  induction 1 as [saved user Hc | saved history user Hc | st e _ IH Hq].
  - unfold mount, presenceEffect. simpl. rewrite Hc. simpl. auto.
  - fold run in Hc |- *. fold step.
    destruct (login_result _ user Hc) as [-> _]. simpl.
    destruct (run_offline history _ (mount_offline saved) Hc) as [Hnil _].
    auto.
  - destruct IH as [Ho Hr]. apply quiet_keeps_cache; assumption.
Qed.

End ClientFacts.


(* ===================================================================== *)
(** * The client: reconciliation of snapshots                             *)
(* ===================================================================== *)

Section ClientClaims.
Import Client.

Variable dateNow : nat -> N.
Variable toISOString : N -> string.

Let addNotification := Client.addNotification dateNow toISOString.
Let receive := Client.receive dateNow toISOString.
Let step := Client.step dateNow toISOString.
Let run := Client.run dateNow toISOString.
Let stamp := Client.stamp dateNow toISOString.

Lemma receive_empty_cache (s : Socket) (st : App) (S : list User.t) :
  onlineUsersRef st = [] ->
  receive s (PRESENCE_UPDATE S) st = syncRef (setOnlineUsers S st).
Proof.
  intros H. unfold receive, Client.receive.
  rewrite (onmessage_empty_cache dateNow toISOString s st S H). reflexivity.
Qed.

Lemma receive_no_arrival (s : Socket) (st : App) (S : list User.t) :
  Forall (fun u => is_arrival s (onlineUsersRef st) u = false) S ->
  receive s (PRESENCE_UPDATE S) st = syncRef (setOnlineUsers S st).
Proof.
  intros H. unfold receive, Client.receive.
  rewrite (onmessage_no_arrival dateNow toISOString s st S H). reflexivity.
Qed.

(** [receive] is one message on the open socket followed by the
    effects of the render it causes. *)
Lemma receive_is_message_then_effects
      (s : Socket) (event : Inbound) (st : App) :
  ws st = Some s -> readyState s = OPEN ->
  receive s event st = step (step st (WsMessage event)) Effects.
Proof.
  intros Hs Ho. unfold receive, Client.receive, step, Client.step.
  rewrite Hs, Ho. reflexivity.
Qed.

(** First-snapshot silence where the connection was opened at mount
    with a stored session or at a login: the client has nothing cached,
    so the first PRESENCE_UPDATE adds no notification, however many
    users it lists, and becomes the online list (and the cache, once
    rendered). *)
Lemma first_snapshot_silence (st : App) (s : Socket) (S : list User.t) :
  AwaitsFirstSnapshot dateNow toISOString st ->
  ws st = Some s -> readyState s = OPEN ->
  let st' := step st (WsMessage (PRESENCE_UPDATE S)) in
  notifications (data st') = notifications (data st) /\
  data st' = data st /\
  clockReads st' = clockReads st /\
  onlineUsers st' = S /\
  onlineUsersRef (step st' Effects) = S.
Proof.
  intros Hw Hs Ho st'. subst st'. unfold step, Client.step.
  rewrite Hs, Ho.
  destruct (awaiting_has_empty_cache dateNow toISOString st Hw) as [_ Hr].
  rewrite (onmessage_empty_cache dateNow toISOString s st S Hr). simpl. auto.
Qed.

(** C10. An empty cache re-enables the initial-snapshot treatment:
    whenever the cached list is empty the snapshot adds no notification
    and becomes the cache; this is the case in particular right after a
    PRESENCE_UPDATE with an empty user list, whatever was cached before
    it. *)
Theorem empty_cache_is_initial (s : Socket) (st : App) (S : list User.t) :
  (onlineUsersRef st = [] ->
   let st' := receive s (PRESENCE_UPDATE S) st in
   data st' = data st /\ clockReads st' = clockReads st /\
   onlineUsers st' = S /\ onlineUsersRef st' = S)
  /\
  (let st0 := receive s (PRESENCE_UPDATE []) st in
   let st' := receive s (PRESENCE_UPDATE S) st0 in
   onlineUsersRef st0 = [] /\
   data st' = data st0 /\ clockReads st' = clockReads st0 /\
   onlineUsers st' = S /\ onlineUsersRef st' = S).
Proof.
  split.
  - intros H st'. subst st'. rewrite (receive_empty_cache s st S H).
    simpl. auto.
  - intros st0 st'.
    assert (H0 : onlineUsersRef st0 = []).
    { subst st0. rewrite receive_no_arrival by constructor. reflexivity. }
    split; [ exact H0 | ]. subst st'.
    rewrite (receive_empty_cache s st0 S H0). simpl. auto.
Qed.

(** C3. New-arrival detection: with {A, B} cached, a snapshot
    {A, B, C}, where C is another peer (its id is not the local user's,
    nor A's, nor B's), adds exactly one notification, the "Peer
    Connected" one naming C, and the cache becomes the snapshot. *)
Theorem new_arrival_detection (s : Socket) (st : App) (a b c : User.t)
  (next : list User.t) :
  Permutation (onlineUsersRef st) [a; b] ->
  Permutation next [a; b; c] ->
  User.id c <> User.id (me s) ->
  User.id c <> User.id a ->
  User.id c <> User.id b ->
  let st' := receive s (PRESENCE_UPDATE next) st in
  notifications (data st') =
    stamp (me s) (peerConnected c) (clockReads st) :: notifications (data st) /\
  AppNotification.message (stamp (me s) (peerConnected c) (clockReads st)) =
    (User.name c ++ " has joined the peer network.")%string /\
  onlineUsers st' = next /\
  onlineUsersRef st' = next.
Proof.
  intros Hcache Hnext Hme Ha Hb st'. subst st'.
  destruct (split_new_arrival s a b c _ next Hcache Hnext Hme Ha Hb)
    as [l1 [l2 [E [H1 [Hc H2]]]]].
  assert (Hne : onlineUsersRef st <> []).
  { intros H0. rewrite H0 in Hcache.
    apply Permutation_nil in Hcache. discriminate. }
  unfold receive, Client.receive. rewrite E.
  rewrite (onmessage_one_arrival dateNow toISOString s st l1 l2 c Hne H1 Hc H2).
  simpl. auto.
Qed.

(** Re-join detection where every snapshot is rendered before the next
    one is handled: starting with nothing cached, or with {A, B}
    cached, the snapshots {A, B}, {A}, {A, B} add no notification at
    the first and at the second, and exactly one at the third, naming B
    (B being another peer: its id is neither the local user's nor
    A's). *)
Lemma rejoin_detection (s : Socket) (st : App) (a b : User.t)
  (first third : list User.t) :
  onlineUsersRef st = [] \/ Permutation (onlineUsersRef st) [a; b] ->
  Permutation first [a; b] ->
  Permutation third [a; b] ->
  User.id b <> User.id (me s) ->
  User.id b <> User.id a ->
  let st1 := receive s (PRESENCE_UPDATE first) st in
  let st2 := receive s (PRESENCE_UPDATE [a]) st1 in
  let st3 := receive s (PRESENCE_UPDATE third) st2 in
  data st1 = data st /\
  data st2 = data st /\
  notifications (data st3) =
    stamp (me s) (peerConnected b) (clockReads st) :: notifications (data st) /\
  AppNotification.message (stamp (me s) (peerConnected b) (clockReads st)) =
    (User.name b ++ " has joined the peer network.")%string /\
  onlineUsersRef st3 = third.
Proof.
  intros Hstart Hfirst Hthird Hme Hab st1 st2 st3.
  assert (E1 : st1 = syncRef (setOnlineUsers first st)).
  { subst st1. destruct Hstart as [H0 | Hp].
    - apply receive_empty_cache. exact H0.
    - apply receive_no_arrival. apply Forall_forall. intros u Hu.
      apply known_is_no_arrival.
      apply (Permutation_in u (Permutation_sym Hp)).
      apply (Permutation_in u Hfirst). exact Hu. }
  assert (E2 : st2 = syncRef (setOnlineUsers [a] st1)).
  { subst st2. apply receive_no_arrival. rewrite E1. simpl.
    constructor; [ | constructor ]. apply known_is_no_arrival.
    apply (Permutation_in a (Permutation_sym Hfirst)). simpl. auto. }
  assert (Hb : In b third)
    by (apply (Permutation_in b (Permutation_sym Hthird)); simpl; auto).
  destruct (in_split _ _ Hb) as [l1 [l2 E]].
  assert (Hrest : Permutation [a] (l1 ++ l2)).
  { apply Permutation_cons_app_inv with b. rewrite <- E.
    apply Permutation_trans with [a; b];
      [ apply perm_swap | apply Permutation_sym; exact Hthird ]. }
  assert (Hold : forall u, In u (l1 ++ l2) -> u = a).
  { intros u Hu. apply (Permutation_in u (Permutation_sym Hrest)) in Hu.
    simpl in Hu. destruct Hu as [<- | []]. reflexivity. }
  assert (R2 : onlineUsersRef st2 = [a]) by (rewrite E2; reflexivity).
  assert (E3 : st3 = syncRef (setOnlineUsers third
                 (addNotification (Some (me s)) (peerConnected b) st2))).
  { subst st3. unfold receive, Client.receive. rewrite E.
    rewrite (onmessage_one_arrival dateNow toISOString s st2 l1 l2 b).
    - reflexivity.
    - rewrite R2. discriminate.
    - rewrite R2. apply Forall_forall. intros u Hu.
      rewrite (Hold u (in_or_app _ _ _ (or_introl Hu))).
      apply known_is_no_arrival. simpl. auto.
    - rewrite R2. apply stranger_is_arrival; [ exact Hme | ].
      intros v [<- | []]. congruence.
    - rewrite R2. apply Forall_forall. intros u Hu.
      rewrite (Hold u (in_or_app _ _ _ (or_intror Hu))).
      apply known_is_no_arrival. simpl. auto. }
  rewrite E3, E2, E1. simpl. auto.
Qed.

(** A logged-out state reached by [Logout], followed by a login and by
    events that are not snapshots, has nothing cached. *)
Lemma quiet_run_keeps_cache (es : list Event) :
  forall st,
    forallb quiet es = true ->
    onlineUsers st = [] -> onlineUsersRef st = [] ->
    onlineUsersRef (run es st) = [].
Proof.
  unfold run, Client.run.
  induction es as [| e es IH]; simpl; intros st Hq Ho Hr; [ exact Hr | ].
  apply andb_true_iff in Hq. destruct Hq as [He Hes].
  destruct (quiet_keeps_cache dateNow toISOString st e He Ho Hr) as [Ho' Hr'].
  apply IH; assumption.
Qed.

(** C7, as the code has it. An explicit logout closes the socket and
    empties the cached online list, so that after the next login the
    first snapshot adds no notification; a transport error leaves the
    stored data and the cached list as they are. *)
Theorem logout_resets_reconciliation (st : App) (user next_user : User.t)
  (es : list Event) (s : Socket) (S : list User.t) :
  currentUser (data st) = Some user ->
  forallb quiet es = true ->
  let out := step st Logout in
  let back := run es (step out (Login next_user)) in
  let st' := receive s (PRESENCE_UPDATE S) back in
  (currentUser (data out) = None /\
   onlineUsers out = [] /\ onlineUsersRef out = [] /\
   (forall sock, ws out = Some sock -> live sock = false)) /\
  (data st' = data back /\ onlineUsers st' = S /\ onlineUsersRef st' = S) /\
  (data (step st WsError) = data st /\
   onlineUsers (step st WsError) = onlineUsers st /\
   onlineUsersRef (step st WsError) = onlineUsersRef st).
Proof.
  intros Hu Hq out back st'.
  assert (Eout : out = {| data := data (handleLogout st);
                          onlineUsers := [];
                          onlineUsersRef := [];
                          ws := ws (presenceCleanup st);
                          clockReads := clockReads st |})
    by (apply (logout_result dateNow toISOString st user Hu)).
  assert (Hnone : currentUser (data out) = None) by (rewrite Eout; reflexivity).
  split; [ | split ].
  - rewrite Eout. simpl. repeat split; auto. apply cleanup_not_live.
  - destruct (login_result dateNow toISOString out next_user Hnone) as [Ein _].
    assert (Hback : onlineUsersRef back = []).
    { subst back. apply quiet_run_keeps_cache; [ exact Hq | | ].
      - fold step in Ein. rewrite Ein, Eout. reflexivity.
      - fold step in Ein. rewrite Ein, Eout. reflexivity. }
    subst st'. rewrite (receive_empty_cache s back S Hback). simpl. auto.
  - unfold step, Client.step, ws_onerror, with_readyState.
    destruct (ws st); simpl; auto.
Qed.

(** C8, as the code has it. ClearAll empties the whole notification
    list, whichever user each entry belongs to, and changes nothing
    else. *)
Theorem clear_all_empties_the_list (st : App) :
  let st' := step st ClearAll in
  notifications (data st') = [] /\
  unreadNotifications st' = 0 /\
  users (data st') = users (data st) /\
  currentUser (data st') = currentUser (data st) /\
  onlineUsers st' = onlineUsers st /\
  onlineUsersRef st' = onlineUsersRef st /\
  ws st' = ws st.
Proof. simpl. repeat split. Qed.

Lemma id_stamp_inj (u v : User.t) (d e : Draft.t) (j k : nat) :
  dateNow j <> dateNow k ->
  String.eqb (AppNotification.id (stamp u d j))
             (AppNotification.id (stamp v e k)) = false.
Proof.
  intros H. apply String.eqb_neq. simpl. intros E. inversion E as [E'].
  apply decimal_inj in E'. contradiction.
Qed.

Lemma notify_result (st : App) (user : User.t) (d : Draft.t) :
  currentUser (data st) = Some user ->
  let st' := step st (Notify d) in
  notifications (data st') =
    stamp user d (clockReads st) :: notifications (data st) /\
  currentUser (data st') = Some user /\
  clockReads st' = 2 + clockReads st.
Proof.
  intros H. unfold step, Client.step, Client.addNotification. rewrite H.
  simpl. auto.
Qed.

(** The count of C9 where the three readings of the clock differ. *)
Lemma unread_after_three_adds (st : App) (user : User.t)
  (d1 d2 d3 : Draft.t) (target : string) :
  currentUser (data st) = Some user ->
  notifications (data st) = [] ->
  let k := clockReads st in
  dateNow k <> dateNow (2 + k) ->
  dateNow k <> dateNow (4 + k) ->
  dateNow (2 + k) <> dateNow (4 + k) ->
  let st3 := run [Notify d1; Notify d2; Notify d3] st in
  In target (map AppNotification.id (notifications (data st3))) ->
  unreadNotifications st3 = 3 /\
  unreadNotifications (step st3 (MarkAsRead target)) = 2 /\
  unreadNotifications (step (step st3 (MarkAsRead target)) ClearAll) = 0.
Proof.
  intros Hu Hn k H12 H13 H23 st3.
  assert (E : notifications (data st3) =
              [stamp user d3 (4 + k); stamp user d2 (2 + k); stamp user d1 k]).
  { subst st3 k.
    change (run [Notify d1; Notify d2; Notify d3] st)
      with (step (step (step st (Notify d1)) (Notify d2)) (Notify d3)).
    destruct (notify_result st user d1 Hu) as [N1 [U1 C1]].
    destruct (notify_result _ user d2 U1) as [N2 [U2 C2]].
    destruct (notify_result _ user d3 U2) as [N3 _].
    rewrite N3, N2, N1, C2, C1, Hn. reflexivity. }
  intros Hin. rewrite E in Hin.
  split; [ unfold unreadNotifications; rewrite E; reflexivity | ].
  split; [ | reflexivity ].
  unfold unreadNotifications, step, Client.step, markNotificationAsRead.
  cbn [data setData notifications]. rewrite E.
  pose proof (id_stamp_inj user user d1 d2 _ _ H12) as N12.
  pose proof (id_stamp_inj user user d1 d3 _ _ H13) as N13.
  pose proof (id_stamp_inj user user d2 d3 _ _ H23) as N23.
  pose proof N12 as N21. rewrite String.eqb_sym in N21.
  pose proof N13 as N31. rewrite String.eqb_sym in N31.
  pose proof N23 as N32. rewrite String.eqb_sym in N32.
  cbn [map] in Hin |- *.
  destruct Hin as [<- | [<- | [<- | []]]];
    rewrite ?String.eqb_refl, ?N12, ?N13, ?N23, ?N21, ?N31, ?N32;
    reflexivity.
Qed.

End ClientClaims.



(* ===================================================================== *)
(** * The claims at concrete inputs                                       *)
(* ===================================================================== *)

Section Instances.
Import Client Scenario.

(** Alice's freshly opened connection, with three users online. *)
Lemma first_snapshot_silence_witness :
  let st' := Client.step ticking iso alice_online
               (WsMessage (PRESENCE_UPDATE [alice; bob; carol])) in
  notifications (data st') = notifications (data alice_online) /\
  data st' = data alice_online /\
  clockReads st' = clockReads alice_online /\
  onlineUsers st' = [alice; bob; carol] /\
  onlineUsersRef (Client.step ticking iso st' Effects) = [alice; bob; carol].
Proof.
  apply (first_snapshot_silence ticking iso alice_online alice_socket
           [alice; bob; carol]).
  - apply (awaits_quiet ticking iso (mount alice_session) WsOpen).
    + apply (awaits_mount ticking iso alice_session alice). reflexivity.
    + reflexivity.
  - reflexivity.
  - reflexivity.
Defined.

(** C10 at a client whose cache was emptied by an empty snapshot. *)
Lemma empty_cache_is_initial_witness :
  let st := Client.receive ticking iso alice_socket (PRESENCE_UPDATE [])
              alice_sees_bob_carol in
  let st' := Client.receive ticking iso alice_socket
               (PRESENCE_UPDATE [alice; bob; carol; dave]) st in
  onlineUsersRef st = [] /\
  data st' = data st /\ clockReads st' = clockReads st /\
  onlineUsers st' = [alice; bob; carol; dave] /\
  onlineUsersRef st' = [alice; bob; carol; dave].
Proof.
  split; [ reflexivity | ].
  apply (proj1 (empty_cache_is_initial ticking iso alice_socket
                  (Client.receive ticking iso alice_socket
                     (PRESENCE_UPDATE []) alice_sees_bob_carol)
                  [alice; bob; carol; dave])).
  reflexivity.
Defined.

(** C3 at Alice's client: Bob and Carol cached, Dave arrives. *)
Lemma new_arrival_detection_witness :
  let st' := Client.receive ticking iso alice_socket
               (PRESENCE_UPDATE [dave; bob; carol]) alice_sees_bob_carol in
  notifications (data st') =
    Client.stamp ticking iso alice (peerConnected dave)
      (clockReads alice_sees_bob_carol)
    :: notifications (data alice_sees_bob_carol) /\
  AppNotification.message
    (Client.stamp ticking iso alice (peerConnected dave)
       (clockReads alice_sees_bob_carol)) =
    "Dave has joined the peer network." /\
  onlineUsers st' = [dave; bob; carol] /\
  onlineUsersRef st' = [dave; bob; carol].
Proof.
  apply (new_arrival_detection ticking iso alice_socket alice_sees_bob_carol
           bob carol dave [dave; bob; carol]).
  - apply Permutation_refl.
  - apply (Permutation_cons_append [bob; carol] dave).
  - discriminate.
  - discriminate.
  - discriminate.
Defined.

(** Alice's freshly opened connection: Bob and Carol, then Bob alone,
    then both again, each rendered. *)
Lemma rejoin_detection_witness :
  let st1 := Client.receive ticking iso alice_socket
               (PRESENCE_UPDATE [bob; carol]) alice_online in
  let st2 := Client.receive ticking iso alice_socket
               (PRESENCE_UPDATE [bob]) st1 in
  let st3 := Client.receive ticking iso alice_socket
               (PRESENCE_UPDATE [bob; carol]) st2 in
  data st1 = data alice_online /\
  data st2 = data alice_online /\
  notifications (data st3) =
    Client.stamp ticking iso alice (peerConnected carol)
      (clockReads alice_online)
    :: notifications (data alice_online) /\
  AppNotification.message
    (Client.stamp ticking iso alice (peerConnected carol)
       (clockReads alice_online)) =
    "Carol has joined the peer network." /\
  onlineUsersRef st3 = [bob; carol].
Proof.
  apply (rejoin_detection ticking iso alice_socket alice_online bob carol
           [bob; carol] [bob; carol]).
  - left. reflexivity.
  - apply Permutation_refl.
  - apply Permutation_refl.
  - discriminate.
  - discriminate.
Defined.

(** C7, the part that holds, at Alice logging out and Bob logging in. *)
Lemma logout_resets_reconciliation_witness :
  let out := Client.step ticking iso alice_sees_bob_carol Logout in
  let back := Client.run ticking iso [WsOpen]
                (Client.step ticking iso out (Login bob)) in
  let st' := Client.receive ticking iso bob_socket
               (PRESENCE_UPDATE [alice; bob; carol]) back in
  (currentUser (data out) = None /\
   onlineUsers out = [] /\ onlineUsersRef out = [] /\
   (forall sock, ws out = Some sock -> live sock = false)) /\
  (data st' = data back /\ onlineUsers st' = [alice; bob; carol] /\
   onlineUsersRef st' = [alice; bob; carol]) /\
  (data (Client.step ticking iso alice_sees_bob_carol WsError) =
     data alice_sees_bob_carol /\
   onlineUsers (Client.step ticking iso alice_sees_bob_carol WsError) =
     onlineUsers alice_sees_bob_carol /\
   onlineUsersRef (Client.step ticking iso alice_sees_bob_carol WsError) =
     onlineUsersRef alice_sees_bob_carol).
Proof.
  apply (logout_resets_reconciliation ticking iso alice_sees_bob_carol
           alice bob [WsOpen] bob_socket [alice; bob; carol]).
  - reflexivity.
  - reflexivity.
Defined.

(** C7 fails for a transport error: the handler logs, the browser
    closes the socket, and Bob and Carol stay cached. *)
Lemma transport_error_keeps_cache :
  let st := Client.step ticking iso alice_sees_bob_carol WsError in
  ws st = Some {| me := alice; readyState := CLOSED |} /\
  onlineUsersRef st = [bob; carol] /\
  onlineUsers st = [bob; carol] /\
  onlineUsersRef st <> [].
Proof. repeat split. discriminate. Qed.

(** C8 fails on a shared browser: the list holds a notification owned
    by Bob while Alice is the current user, and her ClearAll removes
    it. *)
Lemma clear_all_removes_other_owner :
  let st' := Client.step ticking iso shared_browser ClearAll in
  option_map User.id (currentUser (data shared_browser)) = Some "u1" /\
  map AppNotification.userId (notifications (data shared_browser)) = ["u2"] /\
  notifications (data st') = [] /\
  notifications (data st') <> notifications (data shared_browser).
Proof. repeat split. discriminate. Qed.

(** C9 at the failing input: three notifications added within the same
    millisecond carry the same id, so marking that id as read marks all
    three, and the unread count drops from 3 to 0 instead of 2. *)
Theorem same_millisecond_ids_collide :
  map AppNotification.id (notifications (data three_at_once)) =
    ["n1700000000000"; "n1700000000000"; "n1700000000000"] /\
  unreadNotifications three_at_once = 3 /\
  unreadNotifications
    (Client.step frozen iso three_at_once (MarkAsRead "n1700000000000")) = 0 /\
  unreadNotifications
    (Client.step frozen iso
       (Client.step frozen iso three_at_once (MarkAsRead "n1700000000000"))
       ClearAll) = 0.
Proof. vm_compute. repeat split. Qed.

(** The same collision on the presence path: one snapshot in which
    three peers are new is handled by one loop. *)
Example one_snapshot_three_joins :
  map AppNotification.id
    (notifications
       (data (Client.receive frozen iso alice_socket
                (PRESENCE_UPDATE [alice; bob; carol; dave])
                (Client.receive frozen iso alice_socket
                   (PRESENCE_UPDATE [alice]) alice_online)))) =
    ["n1700000000000"; "n1700000000000"; "n1700000000000"].
Proof. vm_compute. reflexivity. Qed.

(** Two clients in a row, seen from the first: its own snapshot is
    silent, the arrival of the second is notified once. *)
Example second_client_is_announced :
  let st1 := Client.receive ticking iso alice_socket
               (PRESENCE_UPDATE [alice]) alice_online in
  let st2 := Client.receive ticking iso alice_socket
               (PRESENCE_UPDATE [alice; bob]) st1 in
  notifications (data st1) = [] /\
  map AppNotification.message (notifications (data st2)) =
    ["Bob has joined the peer network."].
Proof. vm_compute. repeat split. Qed.

(** With a clock that advances between the readings the count of C9
    is the expected one. *)
Example unread_count_with_ticking_clock :
  let st3 := Client.run ticking iso
               [Notify hub_launched; Notify hub_launched; Notify hub_launched]
               (mount alice_session) in
  unreadNotifications st3 = 3 /\
  unreadNotifications
    (Client.step ticking iso st3 (MarkAsRead "n1700000000002")) = 2 /\
  unreadNotifications
    (Client.step ticking iso
       (Client.step ticking iso st3 (MarkAsRead "n1700000000002"))
       ClearAll) = 0.
Proof. vm_compute. repeat split. Qed.

End Instances.


(* ===================================================================== *)
(** * More on the hub: the registry and the fan-out                       *)
(* ===================================================================== *)

Section HubMoreFacts.
Import Js Hub HubRun.

Lemma map_set_same_key {V} (k : Conn) (v v' : V) (m : JsMap Conn V) :
  map_set Nat.eqb k v (map_set Nat.eqb k v' m) = map_set Nat.eqb k v m.
Proof.
  induction m as [| [k0 v0] m IH]; simpl.
  - rewrite Nat.eqb_refl. reflexivity.
  - destruct (Nat.eqb k0 k) eqn:E; simpl; rewrite E; [ reflexivity | ].
    rewrite IH. reflexivity.
Qed.

Lemma map_set_nodup {V} (k : Conn) (v : V) (m : JsMap Conn V) :
  NoDup (map_keys m) -> NoDup (map_keys (map_set Nat.eqb k v m)).
Proof.
  intros H.
  destruct (map_set_keys Nat.eqb k v m) as [[E _] | [E Hall]].
  - rewrite E. exact H.
  - rewrite E. unfold map_keys in *. rewrite map_app. simpl.
    apply NoDup_app; [ exact H | repeat constructor; intros [] | ].
    intros x Hx [E' | []]. subst x. specialize (Hall k Hx).
    rewrite Nat.eqb_refl in Hall. discriminate.
Qed.

Lemma map_delete_keys_in {V} (k x : Conn) (m : JsMap Conn V) :
  In x (map_keys (map_delete Nat.eqb k m)) -> In x (map_keys m).
Proof.
  unfold map_keys. induction m as [| [k0 v0] m IH]; simpl; auto.
  destruct (Nat.eqb k0 k); simpl; auto.
  intros [E | H]; [ left; exact E | right; apply IH; exact H ].
Qed.

Lemma map_delete_nodup {V} (k : Conn) (m : JsMap Conn V) :
  NoDup (map_keys m) -> NoDup (map_keys (map_delete Nat.eqb k m)).
Proof.
  unfold map_keys. induction m as [| [k0 v0] m IH]; simpl; intros H; auto.
  inversion H as [| ? ? Hnot Hrest]; subst.
  destruct (Nat.eqb k0 k); simpl; auto.
  constructor; auto. intros Hin. apply Hnot.
  apply (map_delete_keys_in k k0 m). exact Hin.
Qed.


Lemma registered_none (ws : Conn) (m : JsMap Conn Value) :
  ~ In ws (map_keys m) -> registered ws m = None.
Proof.
  unfold map_keys. induction m as [| [k0 v0] m IH]; simpl; intros H; auto.
  destruct (Nat.eqb_spec k0 ws) as [-> | Hne]; [ exfalso; auto | auto ].
Qed.

Lemma registered_set (ws c : Conn) (v : Value) (m : JsMap Conn Value) :
  registered c (map_set Nat.eqb ws v m) =
  if Nat.eqb c ws then Some v else registered c m.
Proof.
  induction m as [| [k0 v0] m IH]; simpl.
  - rewrite (Nat.eqb_sym ws c). destruct (Nat.eqb c ws); reflexivity.
  - destruct (Nat.eqb_spec k0 ws) as [-> | Hne]; simpl.
    + rewrite (Nat.eqb_sym ws c). destruct (Nat.eqb c ws); reflexivity.
    + rewrite IH. destruct (Nat.eqb_spec k0 c) as [-> | Hc]; [ | reflexivity ].
      destruct (Nat.eqb_spec c ws); [ contradiction | reflexivity ].
Qed.

Lemma registered_delete (ws c : Conn) (m : JsMap Conn Value) :
  NoDup (map_keys m) ->
  registered c (map_delete Nat.eqb ws m) =
  if Nat.eqb c ws then None else registered c m.
Proof.
  unfold map_keys. induction m as [| [k0 v0] m IH]; simpl; intros H.
  - destruct (Nat.eqb c ws); reflexivity.
  - inversion H as [| ? ? Hnot Hrest]; subst.
    destruct (Nat.eqb_spec k0 ws) as [-> | Hne]; simpl.
    + destruct (Nat.eqb_spec c ws) as [-> | Hc].
      * apply registered_none. exact Hnot.
      * destruct (Nat.eqb_spec ws c); [ congruence | reflexivity ].
    + rewrite (IH Hrest). destruct (Nat.eqb_spec k0 c) as [-> | Hc];
        [ | reflexivity ].
      destruct (Nat.eqb_spec c ws); [ contradiction | reflexivity ].
Qed.

Lemma react_registry (e : Event) (st : State) :
  activeUsers (next (react e st)) = activeUsers st \/
  (exists ws v, activeUsers (next (react e st)) =
                map_set Nat.eqb ws v (activeUsers st)) \/
  (exists ws, activeUsers (next (react e st)) =
              map_delete Nat.eqb ws (activeUsers st)).
Proof.
  destruct e as [c | c message | c]; unfold react.
  - left. reflexivity.
  - unfold on_message. destruct message as [| data]; [ left; reflexivity | ].
    destruct (get data "type") as [ty | e1]; [ | left; reflexivity ].
    destruct (strict_eq_string ty "USER_JOINED"); [ | left; reflexivity ].
    destruct (get data "user") as [user | e2]; [ | left; reflexivity ].
    right. left.
    exists c, user. destruct (broadcastPresence _); reflexivity.
  - right. right. exists c. unfold on_close.
    destruct (broadcastPresence _); reflexivity.
Qed.

Lemma react_nodup (e : Event) (st : State) :
  NoDup (map_keys (activeUsers st)) ->
  NoDup (map_keys (activeUsers (next (react e st)))).
Proof.
  intros H.
  destruct (react_registry e st) as [E | [[ws [v E]] | [ws E]]];
    rewrite E; auto using map_set_nodup, map_delete_nodup.
Qed.

Lemma serve_nodup (es : list Event) :
  forall st, NoDup (map_keys (activeUsers st)) ->
             NoDup (map_keys (activeUsers (serve es st))).
Proof.
  unfold serve. induction es as [| e es IH]; simpl; intros st H; auto.
  apply IH. apply react_nodup. exact H.
Qed.

(** X1. Whatever events reach the hub, and whatever their frames hold,
    [activeUsers] has at most one entry per connection. *)
Theorem one_entry_per_connection (es : list Event) :
  NoDup (map_keys (activeUsers (serve es initial))).
Proof. apply serve_nodup. constructor. Qed.

(** X2. When a connection closes, its own entry is gone from the
    registry and the entry of every other connection is what it was. *)
Theorem close_removes_own_entry (es : list Event) (ws : Conn) :
  let st := serve es initial in
  let st' := next (react (Close ws) st) in
  registered ws (activeUsers st') = None /\
  (forall c, c <> ws ->
             registered c (activeUsers st') = registered c (activeUsers st)).
Proof.
  intros st st'.
  assert (Hnd : NoDup (map_keys (activeUsers st)))
    by (apply one_entry_per_connection).
  assert (E : activeUsers st' = map_delete Nat.eqb ws (activeUsers st)).
  { subst st'. unfold react, on_close.
    destruct (broadcastPresence _); reflexivity. }
  rewrite E. split.
  - rewrite (registered_delete ws ws _ Hnd), Nat.eqb_refl. reflexivity.
  - intros c Hc. rewrite (registered_delete ws c _ Hnd).
    destruct (Nat.eqb_spec c ws); [ contradiction | reflexivity ].
Qed.

(** X3. A second announce on a connection replaces the first: the
    registry is the one the second announce alone would have left. *)
Theorem reannounce_overwrites (st : State) (ws : Conn) (r1 r1' r2 r2' : Ref)
  (u1 u2 : Identity) :
  let once := react (Message ws (announce r2 r2' u2)) st in
  let twice :=
    react (Message ws (announce r2 r2' u2))
          (next (react (Message ws (announce r1 r1' u1)) st)) in
  next twice = next once /\
  registered ws (activeUsers (next twice)) = Some (identity_value r2' u2).
Proof.
  intros once twice. subst once twice. unfold react.
  assert (N : forall r r' u s,
             next (on_message ws (announce r r' u) s) =
             register ws (identity_value r' u) s).
  { intros r r' u s. rewrite on_message_announce. cbv zeta.
    destruct (broadcastPresence _); reflexivity. }
  rewrite !N. unfold register. simpl. rewrite map_set_same_key.
  split; [ reflexivity | ].
  rewrite registered_set, Nat.eqb_refl. reflexivity.
Qed.

Lemma fan_out_only_open (cs : list (Conn * ReadyState)) (p q : Payload)
  (c : Conn) : In (c, q) (fan_out cs p) -> In (c, OPEN) cs.
Proof.
  unfold fan_out. rewrite in_map_iff. intros [[c0 s0] [E Hin]].
  apply filter_In in Hin. destruct Hin as [Hin Hopen]. simpl in *.
  inversion E; subst. destruct s0; try discriminate. exact Hin.
Qed.

Lemma delivered_fan_out (e : Event) (st : State) :
  delivered (react e st) = [] \/
  exists users,
    delivered (react e st) =
    fan_out (match e with
             | Close ws => clients (drop ws st)
             | _ => clients st
             end) (PresenceUpdate users).
Proof.
  destruct e as [c | c message | c]; unfold react.
  - left. reflexivity.
  - unfold on_message. destruct message as [| data]; [ left; reflexivity | ].
    destruct (get data "type") as [ty | e1]; [ | left; reflexivity ].
    destruct (strict_eq_string ty "USER_JOINED"); [ | left; reflexivity ].
    destruct (get data "user") as [user | e2]; [ | left; reflexivity ].
    unfold broadcastPresence.
    destruct (snapshot _) as [users | e3]; simpl; [ | left; reflexivity ].
    right. exists users. reflexivity.
  - unfold on_close, broadcastPresence.
    destruct (snapshot _) as [users | e3]; simpl; [ | left; reflexivity ].
    right. exists users. reflexivity.
Qed.

(** X4. A payload is handed only to sockets of [wss.clients] whose
    state is OPEN, never to the socket whose close is being handled,
    and all the sockets served by one event get the same payload. *)
Theorem delivery_goes_to_open_sockets (e : Event) (st : State) (c : Conn)
  (p : Payload) :
  In (c, p) (delivered (react e st)) ->
  In (c, OPEN) (clients st) /\
  (forall ws, e = Close ws -> c <> ws) /\
  (forall c' p', In (c', p') (delivered (react e st)) -> p' = p).
Proof.
  intros Hin.
  destruct (delivered_fan_out e st) as [E | [users E]];
    rewrite E in *; [ destruct Hin | ].
  pose proof (fan_out_payload _ _ _ _ Hin) as Hp. subst p.
  apply fan_out_only_open in Hin.
  split; [ | split ].
  - destruct e as [ws | ws m | ws]; try exact Hin.
    unfold drop in Hin. simpl in Hin. apply filter_In in Hin. tauto.
  - intros ws ->. unfold drop in Hin. simpl in Hin.
    apply filter_In in Hin. destruct Hin as [_ Hne]. simpl in Hne.
    intros ->. rewrite Nat.eqb_refl in Hne. discriminate.
  - intros c' p' Hin'. apply fan_out_payload in Hin'. exact Hin'.
Qed.

Lemma delivery_goes_to_open_sockets_witness :
  In (1, OPEN) (clients Scenario.one_tab_announced) /\
  (forall ws, Message 2 (announce 20 21 Scenario.ann_second_tab) = Close ws ->
              1 <> ws) /\
  (forall c' p',
      In (c', p')
         (delivered (react (Message 2 (announce 20 21 Scenario.ann_second_tab))
                       Scenario.one_tab_announced)) ->
      p' = PresenceUpdate [identity_value 21 Scenario.ann_second_tab]).
Proof.
  apply (delivery_goes_to_open_sockets
           (Message 2 (announce 20 21 Scenario.ann_second_tab))
           Scenario.one_tab_announced 1
           (PresenceUpdate [identity_value 21 Scenario.ann_second_tab])).
  simpl. left. reflexivity.
Defined.

Lemma collect_values (entries : JsMap Conn Value) :
  forall um um',
    collect entries um = Normal um' ->
    (forall x, In x (map_values um') ->
               In x (map_values um) \/ In x (map_values entries)) /\
    List.length um' <= List.length um + List.length entries.
Proof.
  induction entries as [| [c user] rest IH]; simpl; intros um um' H.
  - inversion H; subst. split; [ auto | lia ].
  - destruct (get user "id") as [i | e] eqn:G; simpl in H; [ | discriminate ].
    destruct (IH _ _ H) as [Hin Hlen]. split.
    + intros x Hx. destruct (Hin x Hx) as [Hx' | Hx']; [ | auto ].
      apply map_set_values_in in Hx'. destruct Hx' as [-> | Hx']; auto.
    + assert (List.length (map_set sameValueZero i user um)
              <= S (List.length um)).
      { clear. induction um as [| [k0 v0] um IHum]; simpl; [ lia | ].
        destruct (sameValueZero k0 i); simpl; lia. }
      lia.
Qed.

(** X5. A snapshot lists registered values only, at most as many as
    the registry has entries, and for every registered value it has an
    entry with the same id. *)
Theorem snapshot_sound_and_complete (entries : JsMap Conn Value)
  (users : list Value) :
  snapshot entries = Normal users ->
  (forall v, In v users -> In v (map_values entries)) /\
  List.length users <= List.length entries /\
  (forall v, In v (map_values entries) ->
             exists w, In w users /\
                       sameValueZero (id_of w) (id_of v) = true).
Proof.
  unfold snapshot. destruct (collect entries []) as [um | e] eqn:C; simpl;
    [ | discriminate ].
  intros H. inversion H; subst users. clear H.
  destruct (collect_values _ _ _ C) as [Hin Hlen].
  destruct (collect_covers _ _ _ C) as [_ Hcov].
  destruct (collect_invariant _ _ _ C) as [_ Hk]; [ constructor | constructor | ].
  split; [ | split ].
  - intros v Hv. destruct (Hin v Hv) as [[] | Hv']. exact Hv'.
  - unfold map_values. rewrite length_map. simpl in Hlen. exact Hlen.
  - intros v Hv. destruct (Hcov v Hv) as [k [Hkin Hsame]].
    unfold map_keys in Hkin. rewrite in_map_iff in Hkin.
    destruct Hkin as [[k' w] [E Hp]]. simpl in E. subst k'.
    exists w. split.
    + unfold map_values. apply in_map_iff. exists (k, w). auto.
    + unfold keyed in Hk. rewrite Forall_forall in Hk.
      specialize (Hk _ Hp). simpl in Hk.
      apply sameValueZero_trans with k; [ | exact Hsame ].
      rewrite sameValueZero_sym. exact Hk.
Qed.

Lemma snapshot_sound_and_complete_witness :
  (forall v, In v [identity_value 21 Scenario.ann_second_tab] ->
             In v (map_values (activeUsers Cases.two_tabs))) /\
  List.length [identity_value 21 Scenario.ann_second_tab]
    <= List.length (activeUsers Cases.two_tabs) /\
  (forall v, In v (map_values (activeUsers Cases.two_tabs)) ->
             exists w, In w [identity_value 21 Scenario.ann_second_tab] /\
                       sameValueZero (id_of w) (id_of v) = true).
Proof.
  apply (snapshot_sound_and_complete (activeUsers Cases.two_tabs)
           [identity_value 21 Scenario.ann_second_tab]).
  reflexivity.
Defined.

Lemma collect_throws (entries : JsMap Conn Value) :
  forall um e,
    collect entries um = Throw e ->
    e = TypeError /\ registry_readable entries = false.
Proof.
  unfold registry_readable, map_values.
  induction entries as [| [c user] rest IH]; simpl; intros um e H.
  - discriminate.
  - destruct (get user "id") as [i | e'] eqn:G; simpl in H.
    + destruct (IH _ _ H) as [-> Hr]. rewrite Hr.
      split; [ reflexivity | apply andb_false_r ].
    + inversion H; subst e'. destruct user; simpl in G; try discriminate;
        inversion G; subst; auto.
Qed.

Lemma collect_unreadable (entries : JsMap Conn Value) :
  registry_readable entries = false ->
  forall um, exists e, collect entries um = Throw e.
Proof.
  unfold registry_readable, map_values.
  induction entries as [| [c user] rest IH]; simpl; intros H um.
  - discriminate.
  - destruct (readable user) eqn:Ru; simpl in H.
    + destruct (readable_get user "id" Ru) as [i ->]. simpl. auto.
    + destruct user; simpl in Ru; try discriminate; simpl; eauto.
Qed.

(** X6. The snapshot is computed exactly when no registered value is
    [undefined] or [null]; otherwise [broadcastPresence] throws a
    TypeError, which the close handler lets escape and the message
    handler logs. *)
Theorem broadcast_throws_on_unreadable (st : State) :
  (registry_readable (activeUsers st) = true <->
   exists sends, broadcastPresence st = Normal sends) /\
  (registry_readable (activeUsers st) = false <->
   broadcastPresence st = Throw TypeError) /\
  (forall ws,
      registry_readable (activeUsers (unregister ws st)) = false <->
      outcome (on_close ws st) = Uncaught TypeError).
Proof.
  assert (A : forall s, registry_readable (activeUsers s) = true ->
                        exists sends, broadcastPresence s = Normal sends).
  { intros s H. destruct (snapshot_readable _ H) as [users Hs].
    unfold broadcastPresence. rewrite Hs. simpl. eauto. }
  assert (B : forall s, registry_readable (activeUsers s) = false ->
                        broadcastPresence s = Throw TypeError).
  { intros s H. unfold broadcastPresence, snapshot.
    destruct (collect_unreadable _ H []) as [e C].
    rewrite C. simpl. destruct (collect_throws _ _ _ C) as [-> _].
    reflexivity. }
  split; [ | split ].
  - split; [ apply A | ]. intros [sends Hs].
    destruct (registry_readable (activeUsers st)) eqn:R; [ reflexivity | ].
    rewrite (B st R) in Hs. discriminate.
  - split; [ apply B | ]. intros Ht.
    destruct (registry_readable (activeUsers st)) eqn:R; [ | reflexivity ].
    destruct (A st R) as [sends Hs]. rewrite Hs in Ht. discriminate.
  - intros ws. unfold on_close. split.
    + intros R. rewrite (B _ R). reflexivity.
    + intros Ho.
      destruct (registry_readable (activeUsers (unregister ws st))) eqn:R;
        [ | reflexivity ].
      destruct (A _ R) as [sends Hs]. rewrite Hs in Ho. discriminate.
Qed.








(** X9. A frame changes nothing but the entry of the connection it came
    in on: the entries of the other connections and [wss.clients] are
    as before, and no exception leaves the message handler. *)
Theorem message_touches_only_its_sender (st : State) (ws : Conn)
  (message : Frame) :
  let rx := react (Message ws message) st in
  clients (next rx) = clients st /\
  (forall c, c <> ws ->
             registered c (activeUsers (next rx)) =
             registered c (activeUsers st)) /\
  (forall e, outcome rx <> Uncaught e).
Proof.
  intros rx. subst rx. unfold react.
  split; [ | split ].
  - unfold on_message. destruct message as [| data]; [ reflexivity | ].
    destruct (get data "type") as [ty | e1]; [ | reflexivity ].
    destruct (strict_eq_string ty "USER_JOINED"); [ | reflexivity ].
    destruct (get data "user") as [user | e2]; [ | reflexivity ].
    destruct (broadcastPresence _); reflexivity.
  - intros c Hc. unfold on_message.
    destruct message as [| data]; [ reflexivity | ].
    destruct (get data "type") as [ty | e1]; [ | reflexivity ].
    destruct (strict_eq_string ty "USER_JOINED"); [ | reflexivity ].
    destruct (get data "user") as [user | e2]; [ | reflexivity ].
    assert (E : registered c (activeUsers (register ws user st))
                = registered c (activeUsers st)).
    { unfold register. simpl. rewrite registered_set.
      destruct (Nat.eqb_spec c ws); [ contradiction | reflexivity ]. }
    destruct (broadcastPresence _); exact E.
  - apply on_message_never_uncaught.
Qed.

End HubMoreFacts.


(* ===================================================================== *)
(** * More on the client: notifications and sessions                      *)
(* ===================================================================== *)

Section ClientMoreFacts.
Import Client Reconcile.

Variable dateNow : nat -> N.
Variable toISOString : N -> string.

Lemma stampAll_unread (user : User.t) (us : list User.t) :
  forall k,
    filter (fun n => negb (AppNotification.isRead n))
           (stampAll dateNow toISOString user us k)
    = stampAll dateNow toISOString user us k.
Proof.
  induction us as [| u us IH]; simpl; intros k; [ reflexivity | ].
  rewrite IH. reflexivity.
Qed.

Lemma stampAll_length (user : User.t) (us : list User.t) :
  forall k, List.length (stampAll dateNow toISOString user us k)
            = List.length us.
Proof. induction us; simpl; intros k; auto. Qed.

Lemma forEach_notifications (s : Socket) (l : list User.t) :
  forall st,
    let st' := fold_left (Client.notifyIfNew dateNow toISOString s) l st in
    let new := arrivals s (onlineUsersRef st) l in
    notifications (data st') =
      rev (stampAll dateNow toISOString (me s) new (clockReads st))
      ++ notifications (data st) /\
    clockReads st' = 2 * List.length new + clockReads st.
Proof.
  unfold arrivals.
  induction l as [| u l IH]; simpl; intros st; [ auto | ].
  specialize (IH (Client.notifyIfNew dateNow toISOString s st u)).
  simpl in IH. destruct IH as [IHn IHc]. rewrite IHn, IHc.
  rewrite (notifyIfNew_ref dateNow toISOString s st u).
  unfold Client.notifyIfNew.
  destruct (is_arrival s (onlineUsersRef st) u); simpl.
  - rewrite <- app_assoc. simpl. split; [ reflexivity | lia ].
  - auto.
Qed.

(** X10. What one snapshot adds. With an empty cache nothing; otherwise
    one "Peer Connected" notification for each entry of the snapshot
    whose id is neither the local user's nor cached, stamped in the
    order of the snapshot and stored newest first; the unread count
    grows by their number and the snapshot becomes the online list. *)
Theorem snapshot_notifications (s : Socket) (st : App) (l : list User.t) :
  let st' := Client.ws_onmessage dateNow toISOString s (PRESENCE_UPDATE l) st in
  let new :=
    match onlineUsersRef st with
    | [] => []
    | _ :: _ => arrivals s (onlineUsersRef st) l
    end in
  notifications (data st') =
    rev (stampAll dateNow toISOString (me s) new (clockReads st))
    ++ notifications (data st) /\
  clockReads st' = 2 * List.length new + clockReads st /\
  unreadNotifications st' = List.length new + unreadNotifications st /\
  onlineUsers st' = l.
Proof.
  intros st' new.
  assert (H : notifications (data st') =
              rev (stampAll dateNow toISOString (me s) new (clockReads st))
              ++ notifications (data st) /\
              clockReads st' = 2 * List.length new + clockReads st).
  { subst st' new. unfold Client.ws_onmessage.
    destruct (onlineUsersRef st) as [| x cache] eqn:E; simpl.
    - auto.
    - rewrite <- E. apply (forEach_notifications s l st). }
  destruct H as [Hn Hc]. split; [ exact Hn | ]. split; [ exact Hc | ].
  split; [ | reflexivity ].
  unfold unreadNotifications. rewrite Hn, filter_app, length_app.
  rewrite <- (rev_involutive (filter _ (rev _))).
  rewrite <- filter_rev, rev_involutive, stampAll_unread.
  rewrite length_rev, stampAll_length. reflexivity.
Qed.


Lemma mark_map_id (id : string) (ns : list AppNotification.t) :
  map AppNotification.id
      (map (fun n =>
              if String.eqb (AppNotification.id n) id
              then {| AppNotification.id := AppNotification.id n;
                      AppNotification.userId := AppNotification.userId n;
                      AppNotification.type := AppNotification.type n;
                      AppNotification.title := AppNotification.title n;
                      AppNotification.message := AppNotification.message n;
                      AppNotification.timestamp := AppNotification.timestamp n;
                      AppNotification.isRead := true;
                      AppNotification.link := AppNotification.link n |}
              else n) ns)
  = map AppNotification.id ns.
Proof.
  induction ns as [| n ns IH]; simpl; [ reflexivity | ].
  rewrite IH. destruct (String.eqb (AppNotification.id n) id); reflexivity.
Qed.

Lemma notifications_mark (id : string) (st : App) :
  notifications (data (markNotificationAsRead id st)) =
  map (fun n =>
         if String.eqb (AppNotification.id n) id
         then {| AppNotification.id := AppNotification.id n;
                 AppNotification.userId := AppNotification.userId n;
                 AppNotification.type := AppNotification.type n;
                 AppNotification.title := AppNotification.title n;
                 AppNotification.message := AppNotification.message n;
                 AppNotification.timestamp := AppNotification.timestamp n;
                 AppNotification.isRead := true;
                 AppNotification.link := AppNotification.link n |}
         else n) (notifications (data st)).
Proof. reflexivity. Qed.

(** X12. Marking an id as read changes read flags only: entry by
    entry, in order, the list after has the id, owner, type, title,
    message, timestamp and link of the list before, and an entry is read
    afterwards exactly when it was read before or carries the id. When
    every entry that carries the id is already read, the list is what
    it was. *)
Theorem mark_read_changes_flags_only (id : string) (st : App) :
  let before := notifications (data st) in
  let after := notifications (data (markNotificationAsRead id st)) in
  Forall2
    (fun b a =>
       AppNotification.id a = AppNotification.id b /\
       AppNotification.userId a = AppNotification.userId b /\
       AppNotification.type a = AppNotification.type b /\
       AppNotification.title a = AppNotification.title b /\
       AppNotification.message a = AppNotification.message b /\
       AppNotification.timestamp a = AppNotification.timestamp b /\
       AppNotification.link a = AppNotification.link b /\
       AppNotification.isRead a =
         (AppNotification.isRead b || String.eqb (AppNotification.id b) id))
    before after /\
  ((forall n, In n before -> AppNotification.id n = id ->
              AppNotification.isRead n = true) ->
   after = before).
Proof.
  intros before after. subst before after. rewrite notifications_mark.
  generalize (notifications (data st)) as ns. intros ns. split.
  - induction ns as [| n ns IH]; simpl; constructor; [ | exact IH ].
    destruct (String.eqb (AppNotification.id n) id); simpl.
    + rewrite orb_true_r. repeat split.
    + rewrite orb_false_r. repeat split.
  - induction ns as [| n ns IH]; simpl; intros Hread; [ reflexivity | ].
    rewrite IH by (intros m Hm; apply Hread; right; exact Hm).
    destruct (String.eqb_spec (AppNotification.id n) id) as [E | E];
      [ | reflexivity ].
    assert (R : AppNotification.isRead n = true)
      by (apply Hread; [ left; reflexivity | exact E ]).
    destruct n; simpl in R. subst. reflexivity.
Qed.

(** X13. Marking an id as read lowers the unread count by the number
    of unread entries that carry the id, and marking it again changes
    nothing. *)
Theorem mark_read_accounting (id : string) (st : App) :
  unreadNotifications (markNotificationAsRead id st)
  + unreadWithId id (notifications (data st))
  = unreadNotifications st /\
  unreadNotifications
    (markNotificationAsRead id (markNotificationAsRead id st))
  = unreadNotifications (markNotificationAsRead id st).
Proof.
  assert (A : forall s, unreadNotifications (markNotificationAsRead id s)
                        + unreadWithId id (notifications (data s))
                        = unreadNotifications s).
  { intros s. unfold unreadNotifications, unreadWithId.
    rewrite notifications_mark.
    generalize (notifications (data s)) as ns. intros ns.
    induction ns as [| n ns IH]; simpl; [ reflexivity | ].
    destruct (String.eqb (AppNotification.id n) id);
      destruct (AppNotification.isRead n); simpl; lia. }
  split; [ apply A | ].
  pose proof (A (markNotificationAsRead id st)) as B.
  assert (Z : unreadWithId id
                (notifications (data (markNotificationAsRead id st))) = 0).
  { unfold unreadWithId. rewrite notifications_mark.
    generalize (notifications (data st)) as ns. intros ns.
    induction ns as [| n ns IH]; simpl; [ reflexivity | ].
    destruct (String.eqb (AppNotification.id n) id) eqn:E; simpl.
    - exact IH.
    - rewrite E. rewrite andb_false_r. exact IH. }
  lia.
Qed.

(** Events of the session and of the socket that carry no snapshot. *)
Lemma session_event_keeps_notifications (st : App) (e : Event) :
  match e with
  | Login _ | Logout | WsOpen | WsError
  | WsMessage Unparseable | WsMessage OtherMessage => True
  | _ => False
  end ->
  notifications (data (Client.step dateNow toISOString st e))
  = notifications (data st).
Proof.
  destruct e as [user | | | event | | notif | id | | newData | ];
    try contradiction; intros He.
  - destruct (currentUser (data st)) as [u |] eqn:C.
    + unfold Client.step. rewrite C. reflexivity.
    + destruct (login_result dateNow toISOString st user C) as [-> [_ Hn]].
      exact Hn.
  - destruct (currentUser (data st)) as [u |] eqn:C.
    + rewrite (logout_result dateNow toISOString st u C). reflexivity.
    + unfold Client.step. rewrite C. reflexivity.
  - unfold Client.step. destruct (ws st) as [sock |] eqn:W; [ | reflexivity ].
    destruct (readyState sock); try reflexivity.
    unfold with_readyState. rewrite W. reflexivity.
  - unfold Client.step. destruct (ws st) as [sock |] eqn:W; [ | reflexivity ].
    destruct (readyState sock); try reflexivity.
    destruct event; try contradiction; reflexivity.
  - unfold Client.step, ws_onerror, with_readyState.
    destruct (ws st); reflexivity.
Qed.

(** X14. The notification list outlives the session: a logout followed
    by the login of any user leaves every notification, read or unread,
    in the list that the interface then shows. *)
Theorem notifications_outlive_the_session (st : App) (user : User.t) :
  let st' := Client.run dateNow toISOString [Logout; Login user] st in
  notifications (data st') = notifications (data st) /\
  unreadNotifications st' = unreadNotifications st.
Proof.
  intros st'.
  assert (E : notifications (data st') = notifications (data st)).
  { subst st'.
    change (Client.run dateNow toISOString [Logout; Login user] st)
      with (Client.step dateNow toISOString
              (Client.step dateNow toISOString st Logout) (Login user)).
    rewrite (session_event_keeps_notifications _ (Login user) I).
    apply (session_event_keeps_notifications st Logout I). }
  split; [ exact E | ]. unfold unreadNotifications. rewrite E. reflexivity.
Qed.

(** X15. [handleLogin] stores a user under an email once: addresses
    that were pairwise distinct stay so, the address of the user who
    logs in is among them afterwards, a known address leaves the stored
    users as they were, and the user becomes the current one. *)
Theorem login_keeps_emails_distinct (user : User.t) (st : App) :
  let st' := handleLogin user st in
  currentUser (data st') = Some user /\
  In (User.email user) (emails (users (data st'))) /\
  (In (User.email user) (emails (users (data st))) ->
   users (data st') = users (data st)) /\
  (NoDup (emails (users (data st))) -> NoDup (emails (users (data st')))).
Proof.
  intros st'. subst st'. unfold handleLogin, emails.
  destruct (existsb _ (users (data st))) eqn:E; simpl.
  - apply existsb_exists in E. destruct E as [u [Hin He]].
    apply String.eqb_eq in He.
    repeat split; auto.
    rewrite <- He. apply in_map. exact Hin.
  - assert (Hnot : ~ In (User.email user) (map User.email (users (data st)))).
    { intros Hin. apply in_map_iff in Hin. destruct Hin as [u [He Hu]].
      assert (existsb (fun u0 => String.eqb (User.email u0) (User.email user))
                      (users (data st)) = true).
      { apply existsb_exists. exists u. split; [ exact Hu | ].
        apply String.eqb_eq. exact He. }
      congruence. }
    repeat split.
    + rewrite map_app. apply in_or_app. right. simpl. auto.
    + intros Hin. contradiction.
    + intros Hnd. rewrite map_app. simpl.
      apply NoDup_app; [ exact Hnd | repeat constructor; intros [] | ].
      intros x Hx [Ex | []]. subst x. contradiction.
Qed.

End ClientMoreFacts.


(* ===================================================================== *)
(** * The catalogue, the peer directory and the stored data               *)
(* ===================================================================== *)

Section CatalogueFacts.
Import Catalogue.

Lemma includes_spec (l : list string) (x : string) :
  includes l x = true <-> In x l.
Proof.
  unfold includes. rewrite existsb_exists. split.
  - intros [y [Hin E]]. apply String.eqb_eq in E. subst y. exact Hin.
  - intros Hin. exists x. split; [ exact Hin | apply String.eqb_refl ].
Qed.

Lemma negb_eqb_true (a b : string) : negb (String.eqb a b) = true <-> a <> b.
Proof.
  destruct (String.eqb_spec a b); simpl; split; intros; congruence.
Qed.

(** X16. [deleteSkill] removes the hub, its contents and the comments
    on them, and nothing else of the skills and contents; a catalogue
    in which every comment is on a stored content and every content in
    a stored hub stays such a catalogue. *)
Theorem delete_skill_keeps_catalogue_attached (skillId : string) (d : Shelf) :
  let d' := deleteSkill skillId d in
  (forall s, In s (skills d') <-> In s (skills d) /\ Skill.id s <> skillId) /\
  (forall x, In x (contents d') <->
             In x (contents d) /\ ContentItem.skillId x <> skillId) /\
  (forall c, In c (comments d') <->
             In c (comments d) /\
             forall x, In x (contents d) ->
                       ContentItem.skillId x = skillId ->
                       ContentItem.id x <> Comment.contentId c) /\
  (comments_attached d -> comments_attached d') /\
  (contents_attached d -> contents_attached d').
Proof.
  intros d'.
  assert (Hs : forall s, In s (skills d') <->
                         In s (skills d) /\ Skill.id s <> skillId).
  { intros s. subst d'. unfold deleteSkill. simpl.
    rewrite filter_In, negb_eqb_true. reflexivity. }
  assert (Hx : forall x, In x (contents d') <->
                         In x (contents d) /\ ContentItem.skillId x <> skillId).
  { intros x. subst d'. unfold deleteSkill. simpl.
    rewrite filter_In, negb_eqb_true. reflexivity. }
  assert (Hc : forall c, In c (comments d') <->
                         In c (comments d) /\
                         forall x, In x (contents d) ->
                                   ContentItem.skillId x = skillId ->
                                   ContentItem.id x <> Comment.contentId c).
  { intros c. subst d'. unfold deleteSkill. simpl. rewrite filter_In.
    split; intros [Hin H]; (split; [ exact Hin | ]).
    - intros x Hxin Hxs Hid.
      assert (includes
                (map ContentItem.id
                   (filter (fun c0 => String.eqb (ContentItem.skillId c0) skillId)
                           (contents d)))
                (Comment.contentId c) = true).
      { apply includes_spec. rewrite <- Hid. apply in_map.
        apply filter_In. split; [ exact Hxin | ].
        apply String.eqb_eq. exact Hxs. }
      rewrite H0 in H. discriminate.
    - destruct (includes _ (Comment.contentId c)) eqn:E; [ | reflexivity ].
      exfalso. apply includes_spec in E. apply in_map_iff in E.
      destruct E as [x [Hid Hxin]]. apply filter_In in Hxin.
      destruct Hxin as [Hxin Hxs]. apply String.eqb_eq in Hxs.
      exact (H x Hxin Hxs Hid). }
  split; [ exact Hs | ]. split; [ exact Hx | ]. split; [ exact Hc | ]. split.
  - intros Hatt c Hin. apply Hc in Hin. destruct Hin as [Hin Hfree].
    destruct (Hatt c Hin) as [x [Hxin Hid]]. exists x. split; [ | exact Hid ].
    apply Hx. split; [ exact Hxin | ]. intros Hxs. exact (Hfree x Hxin Hxs Hid).
  - intros Hatt x Hin. apply Hx in Hin. destruct Hin as [Hin Hne].
    destruct (Hatt x Hin) as [s [Hsin Hid]]. exists s. split; [ | exact Hid ].
    apply Hs. split; [ exact Hsin | ]. congruence.
Qed.

(** X17. [deleteContent] removes the contents with the given id and the
    comments on them, leaves the skills alone, and keeps every comment
    on a stored content and every content in a stored hub. *)
Theorem delete_content_keeps_catalogue_attached (contentId : string)
  (d : Shelf) :
  let d' := deleteContent contentId d in
  skills d' = skills d /\
  (forall x, In x (contents d') <->
             In x (contents d) /\ ContentItem.id x <> contentId) /\
  (forall c, In c (comments d') <->
             In c (comments d) /\ Comment.contentId c <> contentId) /\
  (comments_attached d -> comments_attached d') /\
  (contents_attached d -> contents_attached d').
Proof.
  intros d'.
  assert (Hx : forall x, In x (contents d') <->
                         In x (contents d) /\ ContentItem.id x <> contentId).
  { intros x. subst d'. unfold deleteContent. simpl.
    rewrite filter_In, negb_eqb_true. reflexivity. }
  assert (Hc : forall c, In c (comments d') <->
                         In c (comments d) /\ Comment.contentId c <> contentId).
  { intros c. subst d'. unfold deleteContent. simpl.
    rewrite filter_In, negb_eqb_true. reflexivity. }
  split; [ reflexivity | ]. split; [ exact Hx | ]. split; [ exact Hc | ]. split.
  - intros Hatt c Hin. apply Hc in Hin. destruct Hin as [Hin Hne].
    destruct (Hatt c Hin) as [x [Hxin Hid]]. exists x. split; [ | exact Hid ].
    apply Hx. split; [ exact Hxin | congruence ].
  - intros Hatt x Hin. apply Hx in Hin. destruct Hin as [Hin _].
    exact (Hatt x Hin).
Qed.

Lemma includes_filter_out (l : list string) (s t : string) :
  includes (filter (fun y => negb (String.eqb y s)) l) t =
  if String.eqb t s then false else includes l t.
Proof.
  induction l as [| y l IH]; simpl.
  - destruct (String.eqb t s); reflexivity.
  - destruct (String.eqb_spec y s) as [Eys | Eys]; simpl; rewrite IH;
      destruct (String.eqb_spec t s) as [Ets | Ets]; try reflexivity.
    + destruct (String.eqb_spec y t) as [Eyt | Eyt]; [ | reflexivity ].
      exfalso. apply Ets. congruence.
    + destruct (String.eqb_spec y t) as [Eyt | Eyt]; [ | reflexivity ].
      exfalso. apply Eys. congruence.
Qed.

Lemma includes_app (l1 l2 : list string) (t : string) :
  includes (l1 ++ l2) t = includes l1 t || includes l2 t.
Proof. unfold includes. apply existsb_app. Qed.

Lemma filter_out_absent (l : list string) (s : string) :
  includes l s = false ->
  filter (fun y => negb (String.eqb y s)) l = l.
Proof.
  induction l as [| y l IH]; simpl; intros H; [ reflexivity | ].
  apply orb_false_iff in H. destruct H as [Hy Hl].
  rewrite Hy. simpl. rewrite IH; auto.
Qed.

(** X18. Toggling a skill flips whether the list includes it and leaves
    the membership of every other skill alone; toggling twice a skill
    that was not in the list gives the list back. *)
Theorem toggle_flips_membership (l : list string) (s : string) :
  includes (toggled l s) s = negb (includes l s) /\
  (forall t, t <> s -> includes (toggled l s) t = includes l t) /\
  (includes l s = false -> toggled (toggled l s) s = l).
Proof.
  unfold toggled. split; [ | split ].
  - destruct (includes l s) eqn:E; simpl.
    + rewrite includes_filter_out, String.eqb_refl. reflexivity.
    + rewrite includes_app, E. simpl. rewrite String.eqb_refl. reflexivity.
  - intros t Ht. apply String.eqb_neq in Ht.
    destruct (includes l s) eqn:E.
    + rewrite includes_filter_out, Ht. reflexivity.
    + rewrite includes_app. simpl. rewrite String.eqb_sym, Ht.
      simpl. rewrite orb_false_r. reflexivity.
  - intros E. rewrite E.
    assert (E' : includes (l ++ [s]) s = true).
    { rewrite includes_app. simpl. rewrite String.eqb_refl.
      apply orb_true_r. }
    rewrite E'. rewrite filter_app. simpl. rewrite String.eqb_refl. simpl.
    rewrite List.app_nil_r. apply filter_out_absent. exact E.
Qed.

End CatalogueFacts.

Section DirectoryFacts.
Import Client Directory.

Lemma some_id_spec (l : list User.t) (x : string) :
  some_id l x = true <-> In x (ids l).
Proof.
  unfold some_id, ids. rewrite existsb_exists, in_map_iff. split.
  - intros [u [Hin E]]. apply String.eqb_eq in E. eauto.
  - intros [u [E Hin]]. exists u. split; [ exact Hin | ].
    apply String.eqb_eq. exact E.
Qed.

Lemma allPeers_shape (online : list User.t) :
  forall users,
  exists extra,
    allPeers users online = users ++ extra /\
    incl extra online /\
    (forall u, In u extra -> ~ In (User.id u) (ids users)) /\
    NoDup (ids extra) /\
    (forall o, In o online -> In (User.id o) (ids (users ++ extra))).
Proof.
  unfold allPeers.
  induction online as [| o online IH]; simpl; intros users.
  - exists []. rewrite List.app_nil_r. repeat split; auto.
    + intros u [].
    + constructor.
    + intros o [].
  - unfold pushIfNew at 2. destruct (some_id users (User.id o)) eqn:E.
    + destruct (IH users) as [extra [Heq [Hincl [Hnew [Hnd Hcov]]]]].
      exists extra. repeat split; auto.
      * intros u Hu. right. apply Hincl. exact Hu.
      * intros o' [<- | Ho']; [ | auto ].
        apply some_id_spec in E. unfold ids in *. rewrite map_app.
        apply in_or_app. auto.
    + destruct (IH (users ++ [o])) as [extra [Heq [Hincl [Hnew [Hnd Hcov]]]]].
      assert (Ho : ~ In (User.id o) (ids users)).
      { intros Hin. apply some_id_spec in Hin. congruence. }
      exists (o :: extra). rewrite Heq, <- app_assoc. simpl.
      split; [ reflexivity | ]. split; [ | split; [ | split ] ].
      * intros u [<- | Hu]; [ left; reflexivity | right; apply Hincl; exact Hu ].
      * intros u [<- | Hu]; [ exact Ho | ].
        intros Hin. apply (Hnew u Hu). unfold ids in *. rewrite map_app.
        apply in_or_app. auto.
      * simpl. constructor; [ | exact Hnd ].
        intros Hin. unfold ids in Hin. apply in_map_iff in Hin.
        destruct Hin as [u [Hid Hu]]. apply (Hnew u Hu).
        unfold ids. rewrite map_app. apply in_or_app. right.
        simpl. auto.
      * intros o' [<- | Ho'].
        -- unfold ids. rewrite map_app. apply in_or_app. right. simpl. auto.
        -- specialize (Hcov o' Ho'). rewrite <- app_assoc in Hcov.
           exact Hcov.
Qed.

(** X19. The directory list starts with the stored users, in their
    order, followed by online users only, each under an id that no
    stored user and no other added user has; every online id is in the
    list, and ids that are pairwise distinct among the stored users are
    pairwise distinct in the list. *)
Theorem all_peers_merges_by_id (users online : list User.t) :
  exists extra,
    allPeers users online = users ++ extra /\
    incl extra online /\
    (forall u, In u extra -> ~ In (User.id u) (ids users)) /\
    NoDup (ids extra) /\
    (forall o, In o online -> In (User.id o) (ids (allPeers users online))) /\
    (NoDup (ids users) -> NoDup (ids (allPeers users online))).
Proof.
  destruct (allPeers_shape online users)
    as [extra [Heq [Hincl [Hnew [Hnd Hcov]]]]].
  exists extra. rewrite Heq. repeat split; auto.
  intros Hu. unfold ids in *. rewrite map_app.
  apply NoDup_app; [ exact Hu | exact Hnd | ].
  intros x Hx Hx'. apply in_map_iff in Hx'. destruct Hx' as [u [Hid Hin]].
  apply (Hnew u Hin). rewrite Hid. exact Hx.
Qed.

End DirectoryFacts.

Section StoreFacts.
Import Js Store.

Lemma own_property_set (k k' : string) (v : Value) (m : list (string * Value)) :
  own_property k (map_set String.eqb k' v m) =
  if String.eqb k' k then v else own_property k m.
Proof.
  induction m as [| [k0 v0] m IH]; simpl.
  - destruct (String.eqb k' k); reflexivity.
  - destruct (String.eqb_spec k0 k') as [-> | Hne]; simpl.
    + destruct (String.eqb k' k); reflexivity.
    + rewrite IH. destruct (String.eqb_spec k' k) as [-> | Hk];
        [ | reflexivity ].
      destruct (String.eqb_spec k0 k); [ contradiction | reflexivity ].
Qed.

Lemma own_property_absent (k : string) (ps : list (string * Value)) :
  ~ In k (map fst ps) -> own_property k ps = JUndefined.
Proof.
  induction ps as [| [k0 v0] ps IH]; simpl; intros H; [ reflexivity | ].
  destruct (String.eqb_spec k0 k) as [-> | Hne]; [ exfalso; auto | auto ].
Qed.

Lemma own_property_fold (k : string) (ps : list (string * Value)) :
  NoDup (map fst ps) ->
  forall target,
    (In k (map fst ps) ->
     own_property k
       (fold_left (fun acc p => map_set String.eqb (fst p) (snd p) acc)
                  ps target) = own_property k ps) /\
    (~ In k (map fst ps) ->
     own_property k
       (fold_left (fun acc p => map_set String.eqb (fst p) (snd p) acc)
                  ps target) = own_property k target).
Proof.
  induction ps as [| [k0 v0] ps IH]; intros Hnd target.
  - split; [ intros [] | reflexivity ].
  - inversion Hnd as [| ? ? Hnot Hrest]; subst.
    destruct (IH Hrest (map_set String.eqb k0 v0 target)) as [IHin IHout].
    cbn [fold_left map fst snd own_property].
    rewrite own_property_set in IHout.
    destruct (in_dec string_dec k (map fst ps)) as [Hin | Hout].
    + assert (E : k0 <> k) by (intros E; apply Hnot; rewrite E; exact Hin).
      apply String.eqb_neq in E. rewrite E.
      split; [ intros _; exact (IHin Hin) | ].
      intros H. exfalso. apply H. right. exact Hin.
    + specialize (IHout Hout). split.
      * intros [E | H]; [ | contradiction ].
        rewrite IHout. apply String.eqb_eq in E. rewrite E. reflexivity.
      * intros H. rewrite IHout.
        destruct (String.eqb_spec k0 k) as [E | E]; [ | reflexivity ].
        exfalso. apply H. left. exact E.
Qed.

(** X20. [loadData] returns [DEFAULT_DATA] unless the stored text is
    non-empty and parses to an object whose [version] is the current
    one: an absent item, text that does not parse, [null], a number, an
    array and an older version all give the defaults. *)
Theorem load_data_falls_back (JSON_parse : string -> Completion Value)
  (saved : option string) (fresh fresh' : Ref) :
  loadData JSON_parse saved fresh fresh' = DEFAULT_DATA \/
  exists text r props,
    saved = Some text /\ text <> "" /\
    JSON_parse text = Normal (JObject r props) /\
    own_property "version" props = JString APP_VERSION.
Proof.
  unfold loadData. destruct saved as [text |]; [ | auto ].
  destruct (String.eqb_spec text "") as [-> | Hne]; [ auto | ].
  destruct (JSON_parse text) as [parsed | e] eqn:P; [ | auto ].
  destruct parsed as [| | b | n | s | r items | r props]; simpl; auto.
  unfold strict_neq_string, strict_eq_string.
  destruct (own_property "version" props) as [| | b | n | s | r' i | r' p]
    eqn:V; simpl; auto.
  destruct (String.eqb_spec s APP_VERSION) as [-> | Hv]; simpl; auto.
  right. exists text, r, props. auto.
Qed.

(** X21. Stored data of the current version is laid over the defaults:
    a field the stored object has keeps its stored value, a field it
    lacks gets the default, and [notifications] is the stored value
    when that is truthy and a new empty array otherwise. *)
Theorem load_data_merges (JSON_parse : string -> Completion Value)
  (text : string) (r : Ref) (props : list (string * Value))
  (fresh fresh' : Ref) :
  text <> "" ->
  JSON_parse text = Normal (JObject r props) ->
  own_property "version" props = JString APP_VERSION ->
  NoDup (map fst props) ->
  exists merged,
    loadData JSON_parse (Some text) fresh fresh' = JObject fresh merged /\
    own_property "notifications" merged =
      (if truthy (own_property "notifications" props)
       then own_property "notifications" props
       else JArray fresh' []) /\
    truthy (own_property "notifications" merged) = true /\
    (forall k, k <> "notifications" ->
               (In k (map fst props) ->
                own_property k merged = own_property k props) /\
               (~ In k (map fst props) ->
                own_property k merged = own_property k DEFAULT_PROPS)).
Proof.
  intros Hne Hp Hv Hnd. unfold loadData.
  apply String.eqb_neq in Hne. rewrite Hne, Hp. cbn [get]. rewrite Hv.
  unfold strict_neq_string, strict_eq_string.
  rewrite String.eqb_refl. cbn [negb].
  eexists. split; [ reflexivity | ].
  rewrite own_property_set, String.eqb_refl.
  split; [ reflexivity | ]. split.
  - destruct (truthy (own_property "notifications" props)) eqn:T;
      [ exact T | reflexivity ].
  - intros k Hk. rewrite own_property_set.
    assert (E : String.eqb "notifications" k = false)
      by (apply String.eqb_neq; congruence).
    rewrite E.
    destruct (own_property_fold k props Hnd (spread [] DEFAULT_DATA))
      as [Hin Hout].
    split; [ exact Hin | ]. intros H.
    transitivity (own_property k (spread [] DEFAULT_DATA));
      [ exact (Hout H) | reflexivity ].
Qed.

Lemma load_data_merges_witness :
  exists merged,
    loadData Cases.parse_stored (Some Cases.stored_text) 100 101
      = JObject 100 merged /\
    own_property "notifications" merged =
      (if truthy (own_property "notifications"
                    [("version", JString APP_VERSION);
                     ("users", JArray 8 [JString "someone"])])
       then own_property "notifications"
              [("version", JString APP_VERSION);
               ("users", JArray 8 [JString "someone"])]
       else JArray 101 []) /\
    truthy (own_property "notifications" merged) = true /\
    (forall k, k <> "notifications" ->
               (In k (map fst [("version", JString APP_VERSION);
                               ("users", JArray 8 [JString "someone"])]) ->
                own_property k merged =
                own_property k [("version", JString APP_VERSION);
                                ("users", JArray 8 [JString "someone"])]) /\
               (~ In k (map fst [("version", JString APP_VERSION);
                                 ("users", JArray 8 [JString "someone"])]) ->
                own_property k merged = own_property k DEFAULT_PROPS)).
Proof.
  apply (load_data_merges Cases.parse_stored Cases.stored_text 7
           [("version", JString APP_VERSION);
            ("users", JArray 8 [JString "someone"])] 100 101).
  - discriminate.
  - reflexivity.
  - reflexivity.
  - repeat constructor; simpl; intuition discriminate.
Defined.

End StoreFacts.


(* ===================================================================== *)
(** * The further properties at concrete inputs                           *)
(* ===================================================================== *)

Section MoreInstances.
Import Client Reconcile Catalogue Directory Scenario.

(** X12 at Alice's list of one unread and one read notification, for
    the id of the unread one. *)
Lemma mark_read_changes_flags_only_witness :
  Forall2
    (fun b a =>
       AppNotification.id a = AppNotification.id b /\
       AppNotification.userId a = AppNotification.userId b /\
       AppNotification.type a = AppNotification.type b /\
       AppNotification.title a = AppNotification.title b /\
       AppNotification.message a = AppNotification.message b /\
       AppNotification.timestamp a = AppNotification.timestamp b /\
       AppNotification.link a = AppNotification.link b /\
       AppNotification.isRead a =
         (AppNotification.isRead b
          || String.eqb (AppNotification.id b) "n1700000000002"))
    (notifications (data Cases.alice_two_notes))
    (notifications
       (data (markNotificationAsRead "n1700000000002" Cases.alice_two_notes))).
Proof.
  exact (proj1 (mark_read_changes_flags_only "n1700000000002"
                  Cases.alice_two_notes)).
Defined.

(** The same list, for the id of the read one: nothing changes. *)
Example mark_read_again_changes_nothing :
  notifications
    (data (markNotificationAsRead "n1700000000000" Cases.alice_two_notes))
  = notifications (data Cases.alice_two_notes).
Proof. vm_compute. reflexivity. Qed.

(** The same list, for the id of the unread one: the flag flips and
    the rest of the entry stays. *)
Example mark_read_flips_the_unread :
  map AppNotification.isRead
    (notifications
       (data (markNotificationAsRead "n1700000000002" Cases.alice_two_notes)))
  = [true; true] /\
  map AppNotification.title
    (notifications
       (data (markNotificationAsRead "n1700000000002" Cases.alice_two_notes)))
  = map AppNotification.title (notifications (data Cases.alice_two_notes)) /\
  map AppNotification.isRead (notifications (data Cases.alice_two_notes))
  = [false; true].
Proof. vm_compute. repeat split. Qed.

(** X15 at Bob logging in on Alice's browser. *)
Lemma login_keeps_emails_distinct_witness :
  NoDup (emails (users (data (handleLogin bob alice_online)))).
Proof.
  apply (proj2 (proj2 (proj2 (login_keeps_emails_distinct bob alice_online)))).
  repeat constructor; simpl; intuition discriminate.
Defined.

Lemma small_shelf_attached :
  comments_attached Cases.small_shelf /\ contents_attached Cases.small_shelf.
Proof.
  split.
  - intros c [<- | []]. exists Cases.lecture. simpl. auto.
  - intros x [<- | []]. exists Cases.maths. simpl. auto.
Qed.

(** X16 at a catalogue of one hub, one content and one comment, from
    which another hub is deleted. *)
Lemma delete_skill_keeps_catalogue_attached_witness :
  comments_attached (deleteSkill "s2" Cases.small_shelf) /\
  contents_attached (deleteSkill "s2" Cases.small_shelf).
Proof.
  destruct (delete_skill_keeps_catalogue_attached "s2" Cases.small_shelf)
    as [_ [_ [_ [Hc Hx]]]].
  split; [ apply Hc | apply Hx ]; apply small_shelf_attached.
Defined.

(** X17 at the same catalogue, from which the content is deleted. *)
Lemma delete_content_keeps_catalogue_attached_witness :
  comments_attached (deleteContent "c1" Cases.small_shelf) /\
  contents_attached (deleteContent "c1" Cases.small_shelf).
Proof.
  destruct (delete_content_keeps_catalogue_attached "c1" Cases.small_shelf)
    as [_ [_ [_ [Hc Hx]]]].
  split; [ apply Hc | apply Hx ]; apply small_shelf_attached.
Defined.

(** X18 at a skill that is not in the list. *)
Lemma toggle_flips_membership_witness :
  toggled (toggled ["Maths"; "Chess"] "Piano") "Piano" = ["Maths"; "Chess"].
Proof.
  apply (proj2 (proj2 (toggle_flips_membership ["Maths"; "Chess"] "Piano"))).
  reflexivity.
Defined.

(** The deletion of a hub takes its contents and their comments along. *)
Example delete_skill_cascades :
  deleteSkill "s1" Cases.small_shelf =
  {| skills := []; contents := []; comments := [] |}.
Proof. reflexivity. Qed.

(** Alice is stored and online, Bob only online: he is appended once. *)
Example all_peers_appends_once :
  allPeers [alice] [alice; bob; bob] = [alice; bob].
Proof. reflexivity. Qed.

End MoreInstances.



(* ===================================================================== *)
(** * Where the code departs from the claims                              *)
(* ===================================================================== *)

Section Departures.
Import Js Hub Client Scenario.

(** C1 at the failing input. A bulk update that replaces the current
    user makes the presence effect open a new socket while the online
    list keeps what the old socket left there; the first
    PRESENCE_UPDATE on the new socket is compared with that list, and
    Dave, who is online when the client connects, is notified. *)
Theorem reconnect_diffs_against_stale_cache :
  let st := Cases.after_import in
  let st' :=
    Client.step ticking iso st
      (WsMessage (PRESENCE_UPDATE [bob; carol; dave; Cases.imported])) in
  currentUser (data st) = Some Cases.imported /\
  ws st = Some {| me := Cases.imported; readyState := Client.OPEN |} /\
  onlineUsersRef st = [bob; carol] /\
  notifications (data st) = [] /\
  map AppNotification.message (notifications (data st')) =
    ["Dave has joined the peer network."].
Proof. vm_compute. repeat split. Qed.

(** C4 at the failing input. With Bob and Carol cached, the snapshots
    {Bob} and {Bob, Carol} are handled before the effect of lines 31-33
    has copied the first of them into the ref: both are compared with
    the list {Bob, Carol}, and Carol's return is not notified. With a
    render in between it is. *)
Theorem back_to_back_rejoin_is_missed :
  let st := alice_sees_bob_carol in
  let missed := Client.run ticking iso Cases.rejoin_back_to_back st in
  let seen := Client.run ticking iso Cases.rejoin_rendered st in
  onlineUsersRef st = [bob; carol] /\
  notifications (data st) = [] /\
  notifications (data missed) = [] /\
  onlineUsers missed = [bob; carol] /\
  map AppNotification.message (notifications (data seen)) =
    ["Carol has joined the peer network."].
Proof. vm_compute. repeat split. Qed.

(** C5 at the failing input. After a USER_JOINED without a user on
    connection 1, the well-formed announce of the open connection 2 is
    registered, the broadcast throws on the entry of connection 1, and
    nothing is sent: the announcing client gets no snapshot. *)
Theorem announce_after_bare_join_is_not_broadcast :
  let st := Cases.after_bare_join in
  let rx := on_message 2 (announce 20 21 ann) st in
  In (2, Hub.OPEN) (clients st) /\
  activeUsers st = [(1, JUndefined)] /\
  activeUsers (next rx) = [(1, JUndefined); (2, identity_value 21 ann)] /\
  outcome rx = Logged TypeError /\
  delivered rx = [].
Proof. vm_compute. repeat split. right. left. reflexivity. Qed.


End Departures.
